(** * Image storyteller: the generation call and the page that guards it

    A shallow embedding of [src/app.py]: the Streamlit page script, its
    memoized model handle ([get_story_model]) and the one function that
    talks to the hosted model ([generate_story_from_image]).

    Python values are modelled as follows.
    - [str] is a list of Unicode code points, so that [str.strip] removes
      exactly the characters Python's [str.isspace] accepts;
    - [bytes] is a list of bytes;
    - the [lang_map] dict is a [gmap];
    - exceptions are values of [PyExc]; code that may raise and that
      touches the process (the secrets, the resource cache, the calls of
      the model client and its requests on the wire, the rendered page)
      lives in the monad [Py]. *)

From Stdlib Require Import String Ascii NArith ZArith.
From stdpp Require Import base option list gmap.

Local Open Scope N_scope.

(** ** Python strings *)

Definition char := N.
Definition str := list N.
Definition bytes := list Byte.byte.

(** An ASCII literal as a Python string. *)
Definition lit (s : string) : str :=
  N_of_ascii <$> list_ascii_of_string s.

(** [str.isspace] on one character (CPython's [_PyUnicode_IsWhitespace]). *)
Definition isspace (c : char) : bool :=
  ((9 <=? c) && (c <=? 13))          (* \t \n \v \f \r *)
  || ((28 <=? c) && (c <=? 32))      (* FS GS RS US and the space *)
  || (c =? 133) || (c =? 160)        (* NEL, no-break space *)
  || (c =? 5760)                     (* Ogham space mark *)
  || ((8192 <=? c) && (c <=? 8202))  (* en quad .. hair space *)
  || (c =? 8232) || (c =? 8233)      (* line and paragraph separators *)
  || (c =? 8239) || (c =? 8287)      (* narrow no-break, medium math space *)
  || (c =? 12288).                   (* ideographic space *)

Fixpoint lstrip (s : str) : str :=
  match s with
  | [] => []
  | c :: s' => if isspace c then lstrip s' else s
  end.

Definition rstrip (s : str) : str := reverse (lstrip (reverse s)).

(** [s.strip()] with no argument. *)
Definition strip (s : str) : str := rstrip (lstrip s).

(** ** Values exchanged with the libraries *)

(** What [PIL.Image.open] hands back: the sniffed format and the buffer
    the image is lazily read from. *)
Record Image := { img_format : str; img_fp : bytes }.

(** A [genai.GenerativeModel] object.  [handle_id] is the object's
    identity: the number of handles built before it in this process. *)
Record GenerativeModel := { model_name : str; handle_id : nat }.

(** One [model.generate_content] call as the client library receives it. *)
Record Request := {
  req_model : GenerativeModel;     (* the handle the method was called on *)
  req_credential : option str;     (* key installed by genai.configure *)
  req_prompt : str;                (* contents[0] *)
  req_image : Image;               (* contents[1] *)
  req_timeout : Z                  (* request_options["timeout"], seconds *)
}.

Inductive Response :=
| Candidate (text : str)           (* the response carries text *)
| NoText (why : str).              (* no usable part: [.text] raises *)

Inductive PyExc :=
| UnidentifiedImageError           (* PIL: cannot identify image file *)
| GenaiError (cause : str)         (* raised inside generate_content *)
| ValueError (msg : str)           (* raised by response.text *)
| KeyError (key : str)             (* dict subscript *)
| AttributeError (msg : str)       (* attribute access on None *)
| OSError (msg : str)              (* PIL: the image data cannot be read *)
| StreamlitSecretNotFoundError (msg : str).  (* st.secrets: no secrets file *)

(** The cause the client library reports when it finds no API key,
    neither installed by [genai.configure] nor in the environment. *)
Definition no_credentials : str :=
  lit "DefaultCredentialsError: no API key and no default credentials".

(** The libraries the script imports, as far as the script observes
    them, with what is known of their behaviour.
    - PIL: [PIL_identify] is the format [Image.open] recognises in a
      buffer, if any.
    - Streamlit: [st_image_error] is the exception [st.image] raises for
      an upload, if any; [st.image] opens the upload with PIL, and unlike
      [Image.open] it may also have to read the pixel data.
    - google.generativeai: [env_api_key] is the key the client finds in
      the environment (GOOGLE_API_KEY) when none was installed;
      [genai_transport n req] is the outcome of the [n]-th
      [generate_content] call of the process (counted from 0), a failure
      cause or a response; [genai_rpcs n req] is the number of requests
      the client put on the wire for that call, its own retries of an
      unavailable service included.  With no key at all the client fails
      before any request; a response takes at least one request. *)
Class Libraries := {
  PIL_identify : bytes -> option str;
  st_image_error : bytes -> option PyExc;
  st_image_rejects :
    forall data, PIL_identify data = None -> is_Some (st_image_error data);
  env_api_key : option str;
  genai_transport : nat -> Request -> str + Response;
  genai_rpcs : nat -> Request -> nat;
  no_key_no_rpc :
    forall n req,
      req_credential req = None -> env_api_key = None ->
      genai_transport n req = inl no_credentials /\ genai_rpcs n req = 0%nat;
  answer_needs_rpc :
    forall n req response,
      genai_transport n req = inr response -> (1 <= genai_rpcs n req)%nat
}.

(** ** The page *)

Record UploadedFile := { file_name : str; getvalue : bytes }.

Inductive Widget :=
| StImage (file : UploadedFile)
| StButton (label : str) (disabled : bool)
| StWarning (body : str)
| StoryMarkdown (body : str)
| PlaceholderMarkdown.

(** Widget state the browser sends with one rerun of the script. *)
Record Interaction := {
  uploaded_file : option UploadedFile;   (* st.file_uploader *)
  selected_lang : str;                   (* st.radio *)
  generate_clicked : bool                (* st.button *)
}.

(** ** The process *)

(** The Streamlit secrets of the deployment: no secrets file at all, or a
    file that holds the key or does not. *)
Inductive Secrets :=
| NoSecretsFile
| SecretsFile (key : option str).

Record Process := {
  secrets : Secrets;                      (* st.secrets *)
  genai_api_key : option str;             (* set by genai.configure *)
  resource_cache : option GenerativeModel;(* st.cache_resource slot *)
  constructed : nat;                      (* handles built so far *)
  transport_log : list Request;           (* generate_content calls, oldest first *)
  rpcs : nat;                             (* requests put on the wire so far *)
  screen : list Widget                    (* render calls of the current run *)
}.

(** The value of GEMINI_API_KEY in the secrets, if there is one. *)
Definition GEMINI_API_KEY (p : Process) : option str :=
  match secrets p with
  | SecretsFile key => key
  | NoSecretsFile => None
  end.

Definition set_genai_api_key (k : option str) (p : Process) : Process :=
  {| secrets := secrets p; genai_api_key := k;
     resource_cache := resource_cache p; constructed := constructed p;
     transport_log := transport_log p; rpcs := rpcs p; screen := screen p |}.

Definition set_resource_cache (c : option GenerativeModel) (p : Process) : Process :=
  {| secrets := secrets p; genai_api_key := genai_api_key p;
     resource_cache := c; constructed := constructed p;
     transport_log := transport_log p; rpcs := rpcs p; screen := screen p |}.

Definition set_constructed (n : nat) (p : Process) : Process :=
  {| secrets := secrets p; genai_api_key := genai_api_key p;
     resource_cache := resource_cache p; constructed := n;
     transport_log := transport_log p; rpcs := rpcs p; screen := screen p |}.

Definition set_transport_log (l : list Request) (p : Process) : Process :=
  {| secrets := secrets p; genai_api_key := genai_api_key p;
     resource_cache := resource_cache p; constructed := constructed p;
     transport_log := l; rpcs := rpcs p; screen := screen p |}.

Definition set_rpcs (n : nat) (p : Process) : Process :=
  {| secrets := secrets p; genai_api_key := genai_api_key p;
     resource_cache := resource_cache p; constructed := constructed p;
     transport_log := transport_log p; rpcs := n; screen := screen p |}.

Definition set_screen (w : list Widget) (p : Process) : Process :=
  {| secrets := secrets p; genai_api_key := genai_api_key p;
     resource_cache := resource_cache p; constructed := constructed p;
     transport_log := transport_log p; rpcs := rpcs p; screen := w |}.

(** A process that has just started with a secrets file holding the given
    key (or none). *)
Definition boot (secret : option str) : Process :=
  {| secrets := SecretsFile secret; genai_api_key := None;
     resource_cache := None; constructed := 0%nat;
     transport_log := []; rpcs := 0%nat; screen := [] |}.

(** A process that has just started without a secrets file. *)
Definition boot_bare : Process :=
  {| secrets := NoSecretsFile; genai_api_key := None;
     resource_cache := None; constructed := 0%nat;
     transport_log := []; rpcs := 0%nat; screen := [] |}.

(** ** The monad of Python code: process state and exceptions *)

Definition Py (A : Type) : Type := Process -> (PyExc + A) * Process.

#[global] Instance Py_ret : MRet Py := fun A (a : A) p => (inr a, p).

#[global] Instance Py_bind : MBind Py := fun A B (k : A -> Py B) (c : Py A) p =>
  match c p with
  | (inr a, p') => k a p'
  | (inl e, p') => (inl e, p')
  end.

Definition raise {A} (e : PyExc) : Py A := fun p => (inl e, p).
Definition gets {A} (f : Process -> A) : Py A := fun p => (inr (f p), p).
Definition modify (f : Process -> Process) : Py unit := fun p => (inr tt, f p).

(** Outcome and final process of a computation. *)
Definition outcome {A} (r : (PyExc + A) * Process) : PyExc + A := fst r.
Definition after {A} (r : (PyExc + A) * Process) : Process := snd r.

(** ** The script *)

(** Truth value of an [Optional[str]]: [None] and the empty string are false. *)
Definition truthy (v : option str) : bool :=
  match v with
  | Some (_ :: _) => true
  | _ => false
  end.

(** [st.cache_resource] around a function of no arguments: the first
    value the function returns is kept for the life of the process. *)
Definition st_cache_resource (f : Py GenerativeModel) : Py GenerativeModel :=
  hit ← gets resource_cache;
  match hit with
  | Some m => mret m
  | None =>
      m ← f;
      modify (set_resource_cache (Some m));;
      mret m
  end.

(** [genai.GenerativeModel(name)]: builds a handle, no network involved. *)
Definition GenerativeModel_new (name : str) : Py GenerativeModel :=
  n ← gets constructed;
  modify (set_constructed (S n));;
  mret {| model_name := name; handle_id := n |}.

(** [genai.configure(api_key=...)] *)
Definition genai_configure (api_key : option str) : Py unit :=
  modify (set_genai_api_key api_key).

Definition response_text (r : Response) : Py str :=
  match r with
  | Candidate t => mret t
  | NoText why => raise (ValueError why)
  end.

Definition render (w : Widget) : Py unit :=
  modify (fun p => set_screen (screen p ++ [w]) p).

Definition lang_tabs : list str :=
  [lit "English"; lit "Amharic"; lit "Chinese"].

Definition lang_map : gmap str str :=
  <[lit "English" := lit "English"]>
  (<[lit "Amharic" := lit "Amharic"]>
  (<[lit "Chinese" := lit "Chinese"]> ∅)).

(** [d[k]] on a dict *)
Definition subscript (d : gmap str str) (k : str) : Py str :=
  match d !! k with
  | Some v => mret v
  | None => raise (KeyError k)
  end.

Section Script.
Context {libs : Libraries}.

(** [Image.open(io.BytesIO(data))] *)
Definition Image_open (data : bytes) : Py Image :=
  match PIL_identify data with
  | Some fmt => mret {| img_format := fmt; img_fp := data |}
  | None => raise UnidentifiedImageError
  end.

(** [model.generate_content([prompt, img], request_options={"timeout": t})]:
    the script hands the request to the client library once; the client
    looks for a key, puts its requests on the wire (none without a key,
    more than one when it retries) and reports a failure or a response. *)
Definition generate_content (model : GenerativeModel)
    (contents : str * Image) (timeout : Z) : Py Response :=
  key ← gets genai_api_key;
  log ← gets transport_log;
  let req := {| req_model := model; req_credential := key;
                req_prompt := contents.1; req_image := contents.2;
                req_timeout := timeout |} in
  modify (set_transport_log (log ++ [req]));;
  modify (fun p => set_rpcs (rpcs p + genai_rpcs (length log) req) p);;
  match genai_transport (length log) req with
  | inl cause => raise (GenaiError cause)
  | inr response => mret response
  end.

Definition get_story_model : Py GenerativeModel :=
  st_cache_resource (GenerativeModel_new (lit "gemini-1.5-flash")).

Definition generate_story_from_image (image_bytes : bytes) (language : str)
    : Py str :=
  model ← get_story_model;
  let prompt :=
    lit "You are an imaginative storyteller. "
    ++ lit "Look at the image and write a short, vivid narrative (about 3"
       ++ [8211] ++ lit "5 paragraphs). "
    ++ lit "Write the story entirely in " ++ language ++ lit ". "
    ++ lit "Do not describe the task, only tell the story." in
  img ← Image_open image_bytes;
  response ← generate_content model (prompt, img) 120;
  text ← response_text response;
  mret (strip text).

Definition no_key_warning : str :=
  lit "No `GEMINI_API_KEY` found in Streamlit secrets. "
  ++ lit "Add it before generating stories.".

(** [st.secrets.get("GEMINI_API_KEY", None)]: raises when the deployment
    has no secrets file. *)
Definition st_secrets_get : Py (option str) :=
  store ← gets secrets;
  match store with
  | SecretsFile key => mret key
  | NoSecretsFile =>
      raise (StreamlitSecretNotFoundError (lit "No secrets found."))
  end.

(** [st.image(uploaded_file, ...)]: raises when the upload cannot be
    turned into a preview. *)
Definition st_image (f : UploadedFile) : Py unit :=
  match st_image_error (getvalue f) with
  | Some e => raise e
  | None => render (StImage f)
  end.

(** One run of the script, top to bottom, for the given widget state.
    Static markup (styles, headings, captions, footer) is left out. *)
Definition app (ui : Interaction) : Py unit :=
  api_key ← st_secrets_get;
  (if truthy api_key then genai_configure api_key else mret tt);;
  match uploaded_file ui with
  | Some f => st_image f
  | None => mret tt
  end;;
  render (StButton (lit "Generate Story")
            (bool_decide (uploaded_file ui = None) || negb (truthy api_key)));;
  (if negb (truthy api_key) then render (StWarning no_key_warning)
   else mret tt);;
  if generate_clicked ui
     && bool_decide (uploaded_file ui <> None)
     && truthy api_key
  then
    image_bytes ← match uploaded_file ui with
                  | Some f => mret (getvalue f)
                  | None => raise (AttributeError (lit "getvalue"))
                  end;
    language ← subscript lang_map (selected_lang ui);
    story_text ← generate_story_from_image image_bytes language;
    render (StoryMarkdown
              (lit "##### Your Story in " ++ selected_lang ui
               ++ [10; 10] ++ story_text))
  else
    render PlaceholderMarkdown.

(** Streamlit reruns the script on every interaction, on an empty page. *)
Definition rerun (ui : Interaction) : Py unit :=
  modify (set_screen []);;
  app ui.

(** [n] calls of [generate_story_from_image] one after the other in one
    process; an exception ends its own call only. *)
Fixpoint call_each (calls : list (bytes * str)) (p : Process)
    : list (PyExc + str) * Process :=
  match calls with
  | [] => ([], p)
  | (image_bytes, language) :: rest =>
      let r := generate_story_from_image image_bytes language p in
      let rs := call_each rest (after r) in
      (outcome r :: rs.1, rs.2)
  end.

End Script.

(** ** Vocabulary of the specification *)

(** The specification sorts failures into kinds; the script raises plain
    Python exceptions.  These predicates read the specification's kinds
    off the exception that reaches the caller: undecodable image bytes or
    a language outside the supported set are validation errors; a failed
    model call or an unusable response is a generation error. *)
Definition is_ValidationError (e : PyExc) : bool :=
  match e with
  | UnidentifiedImageError | KeyError _ => true
  | _ => false
  end.

Definition is_GenerationError (e : PyExc) : bool :=
  match e with
  | GenaiError _ | ValueError _ => true
  | _ => false
  end.



Definition supported (language : str) : Prop := language ∈ lang_tabs.

(** The bytes decode as an image: [Image.open] accepts them. *)
Definition decodable `{Libraries} (data : bytes) : Prop :=
  is_Some (PIL_identify data).

(** Calls of [generate_content] made while going from [p] to [p']. *)
Definition new_calls (p p' : Process) : list Request :=
  drop (length (transport_log p)) (transport_log p').

(** Requests put on the wire while going from [p] to [p']. *)
Definition new_rpcs (p p' : Process) : nat := (rpcs p' - rpcs p)%nat.

(** The characters [str.strip] removes, one by one. *)
Definition python_whitespace : list char :=
  [9; 10; 11; 12; 13; 28; 29; 30; 31; 32; 133; 160; 5760;
   8192; 8193; 8194; 8195; 8196; 8197; 8198; 8199; 8200; 8201; 8202;
   8232; 8233; 8239; 8287; 12288].

(** Handles built while going from [p] to [p']. *)
Definition new_handles (p p' : Process) : nat :=
  (constructed p' - constructed p)%nat.

Definition whitespace_only (s : str) : Prop := Forall (fun c => isspace c = true) s.

(** No whitespace at either end. *)
Definition trimmed (s : str) : Prop :=
  (forall c, head s = Some c -> isspace c = false)
  /\ (forall c, last s = Some c -> isspace c = false).

(** The instruction text for a language, in the words of the page. *)
Definition instruction (language : str) : str :=
  lit "You are an imaginative storyteller. Look at the image and write a short, vivid narrative (about 3"
  ++ [8211]
  ++ lit "5 paragraphs). Write the story entirely in "
  ++ language
  ++ lit ". Do not describe the task, only tell the story.".

(** ** Describing a run *)

(** The handle [get_story_model] hands out in process [p]: the cached
    one, or else the one it is about to build. *)
Definition handle_in (p : Process) : GenerativeModel :=
  match resource_cache p with
  | Some m => m
  | None => {| model_name := lit "gemini-1.5-flash"; handle_id := constructed p |}
  end.

(** The process once [get_story_model] has run in it. *)
Definition warmed (p : Process) : Process :=
  match resource_cache p with
  | Some _ => p
  | None =>
      set_resource_cache (Some (handle_in p))
        (set_constructed (S (constructed p)) p)
  end.

(** The request a call made in process [p] is expected to send. *)
Definition story_request (p : Process) (fmt : str) (image_bytes : bytes)
    (language : str) : Request :=
  {| req_model := handle_in p;
     req_credential := genai_api_key p;
     req_prompt := instruction language;
     req_image := {| img_format := fmt; img_fp := image_bytes |};
     req_timeout := 120 |}.

(** The guard of the generate branch of the page. *)
Definition may_generate (p : Process) (ui : Interaction) : bool :=
  generate_clicked ui
  && bool_decide (uploaded_file ui <> None)
  && truthy (GEMINI_API_KEY p).

(** What the page renders before it reaches that guard. *)
Definition controls (p : Process) (ui : Interaction) : list Widget :=
  match uploaded_file ui with
  | Some f => [StImage f]
  | None => []
  end
  ++ [StButton (lit "Generate Story")
        (bool_decide (uploaded_file ui = None) || negb (truthy (GEMINI_API_KEY p)))]
  ++ (if truthy (GEMINI_API_KEY p) then [] else [StWarning no_key_warning]).

(** The exception [st.image] raises for the upload of this run, if any. *)
Definition preview_error `{Libraries} (ui : Interaction) : option PyExc :=
  match uploaded_file ui with
  | Some f => st_image_error (getvalue f)
  | None => None
  end.

(** The exception a run without a secrets file ends with. *)
Definition no_secrets : PyExc :=
  StreamlitSecretNotFoundError (lit "No secrets found.").

(** The process after the configuration step at the top of the script. *)
Definition configured (p : Process) : Process :=
  if truthy (GEMINI_API_KEY p) then set_genai_api_key (GEMINI_API_KEY p) p
  else p.

(** The process when the script reaches the guard. *)
Definition at_guard (p : Process) (ui : Interaction) : Process :=
  set_screen (screen p ++ controls p ui) (configured p).

(** The heading and body the page shows for a story. *)
Definition story_markdown (ui : Interaction) (story_text : str) : Widget :=
  StoryMarkdown
    (lit "##### Your Story in " ++ selected_lang ui ++ [10; 10] ++ story_text).

(** The calls one invocation in process [p] is expected to send. *)
Definition expected_calls `{Libraries} (p : Process) (image_bytes : bytes)
    (language : str) : list Request :=
  match PIL_identify image_bytes with
  | Some fmt => [story_request p fmt image_bytes language]
  | None => []
  end.

(** The states a process goes through: it boots, then serves page reruns
    (and, for a caller that bypasses the page, direct calls). *)
Inductive reachable `{Libraries} : Process -> Prop :=
| reach_boot (secret : option str) : reachable (boot secret)
| reach_boot_bare : reachable boot_bare
| reach_rerun (p : Process) (ui : Interaction) :
    reachable p -> reachable (after (rerun ui p))
| reach_call (p : Process) (image_bytes : bytes) (language : str) :
    reachable p ->
    reachable (after (generate_story_from_image image_bytes language p)).

(** The one handle a process ever builds. *)
Definition the_handle : GenerativeModel :=
  {| model_name := lit "gemini-1.5-flash"; handle_id := 0 |}.

(** At most one handle was ever built, the cache holds it, and every call
    sent so far went through it. *)
Definition one_handle (p : Process) : Prop :=
  (resource_cache p = None /\ constructed p = 0%nat
   \/ resource_cache p = Some the_handle /\ constructed p = 1%nat)
  /\ Forall (fun req => req_model req = the_handle) (transport_log p).

(** Two processes agree on the cache, the handle count and the call log. *)
Definition same_core (p q : Process) : Prop :=
  resource_cache p = resource_cache q
  /\ constructed p = constructed q
  /\ transport_log p = transport_log q.

(** ** Test doubles *)

Import Byte.

(** A 1x1 PNG file. *)
Definition png_1x1 : bytes :=
  [x89; x50; x4e; x47; x0d; x0a; x1a; x0a; x00; x00; x00; x0d; x49; x48;
   x44; x52; x00; x00; x00; x01; x00; x00; x00; x01; x08; x02; x00; x00;
   x00; x90; x77; x53; xde; x00; x00; x00; x0c; x49; x44; x41; x54; x78;
   x9c; x63; xf8; xff; xff; x3f; x00; x05; xfe; x02; xfe; x0d; xef; x46;
   xb8; x00; x00; x00; x00; x49; x45; x4e; x44; xae; x42; x60; x82].

(** Bytes no image plugin recognises. *)
Definition not_an_image : bytes := [x68; x65; x6c; x6c; x6f].

(** Recognises the PNG signature only. *)
Definition stub_identify (data : bytes) : option str :=
  match data with
  | x89 :: x50 :: x4e :: x47 :: x0d :: x0a :: x1a :: x0a :: _ => Some (lit "PNG")
  | _ => None
  end.

(** The preview of the stub: fails on what the stub does not identify. *)
Definition stub_image_error (data : bytes) : option PyExc :=
  match stub_identify data with
  | Some _ => None
  | None => Some UnidentifiedImageError
  end.

(** The client of the stub: with a key installed it answers every call
    the same way after one request; with none it fails before any. *)
Definition stub_transport (reply : str + Response) (n : nat) (req : Request)
    : str + Response :=
  match req_credential req with
  | Some _ => reply
  | None => inl no_credentials
  end.

Definition stub_rpcs (n : nat) (req : Request) : nat :=
  match req_credential req with
  | Some _ => 1%nat
  | None => 0%nat
  end.

(** Libraries with nothing in the environment and the stubs above. *)
Definition stub_libs (reply : str + Response) : Libraries :=
  {| PIL_identify := stub_identify;
     st_image_error := stub_image_error;
     st_image_rejects :=
       ltac:(intros data H; unfold stub_image_error; rewrite H; by eexists);
     env_api_key := None;
     genai_transport := stub_transport reply;
     genai_rpcs := stub_rpcs;
     no_key_no_rpc :=
       ltac:(intros n req H _; unfold stub_transport, stub_rpcs;
             by rewrite H);
     answer_needs_rpc :=
       ltac:(intros n req response; unfold stub_transport, stub_rpcs;
             destruct (req_credential req); [lia | discriminate]) |}.

Definition pixel_story : str := lit "A lonely pixel dreamed of color.".

(** The model answers with the pixel story. *)
Definition pixel_libs : Libraries := stub_libs (inr (Candidate pixel_story)).

(** The model answers with blanks and a line feed. *)
Definition blank_libs : Libraries :=
  stub_libs (inr (Candidate (lit "  " ++ [10]))).

(** The pixel story as a model might send it: blanks, a line feed and a
    tab before it, a blank and a line break after it. *)
Definition padded_pixel_story : str :=
  [32; 10; 9] ++ pixel_story ++ [32; 13; 10].

Definition padded_pixel_libs : Libraries :=
  stub_libs (inr (Candidate padded_pixel_story)).



(** The call runs into the deadline. *)
Definition deadline : str := lit "DeadlineExceeded: 504 Deadline Exceeded".
Definition timeout_libs : Libraries := stub_libs (inl deadline).

Definition pixel_file : UploadedFile :=
  {| file_name := lit "pixel.png"; getvalue := png_1x1 |}.

(** The user uploaded the pixel, chose a language and pressed the button. *)
Definition pressed (language : str) : Interaction :=
  {| uploaded_file := Some pixel_file; selected_lang := language;
     generate_clicked := true |}.

Definition a_key : str := lit "k-123".

(** A process whose script has run its configuration step with a key. *)
Definition configured_process : Process :=
  set_genai_api_key (Some a_key) (boot (Some a_key)).

(** Three calls in a freshly booted process: a story, a rejected upload,
    another story. *)
Definition three_calls : list (bytes * str) :=
  [(png_1x1, lit "English"); (not_an_image, lit "Amharic");
   (png_1x1, lit "Chinese")].

(** A second image: the pixel file with a trailing zero byte. *)
Definition other_png : bytes := png_1x1 ++ [x00].

(** The key [genai.configure] installed, if any, is the secret, and the
    secret is not empty; every call of the client so far was made with
    no key installed (the client then looks in the environment) or with
    that one installed. *)
Definition key_from_secret (p : Process) : Prop :=
  (genai_api_key p = None
   \/ genai_api_key p = GEMINI_API_KEY p /\ truthy (GEMINI_API_KEY p) = true)
  /\ Forall
       (fun req =>
          req_credential req = None
          \/ req_credential req = GEMINI_API_KEY p
             /\ truthy (GEMINI_API_KEY p) = true)
       (transport_log p).

(** The widget is the story or the placeholder. *)
Definition is_result (w : Widget) : Prop :=
  match w with
  | StoryMarkdown _ | PlaceholderMarkdown => True
  | _ => False
  end.

(** The request a page run in process [p] is expected to send for the
    uploaded file [f]. *)
Definition page_request (p : Process) (f : UploadedFile) (fmt language : str)
    : Request :=
  {| req_model := handle_in p;
     req_credential := GEMINI_API_KEY p;
     req_prompt := instruction language;
     req_image := {| img_format := fmt; img_fp := getvalue f |};
     req_timeout := 120 |}.

(** The model answers with the pixel story between blanks and a line feed. *)
Definition padded_libs : Libraries :=
  stub_libs (inr (Candidate (lit "  " ++ pixel_story ++ [10]))).

(** A process after one press of the button with a key configured. *)
Definition served_process : Process :=
  after (@rerun pixel_libs (pressed (lit "English")) (boot (Some a_key))).

(** * Properties *)

(** ** [str.strip] *)

Example strip_demo :
  strip (lit "  A tale. " ++ [10; 12288]) = lit "A tale.".
Proof. reflexivity. Qed.

Lemma lstrip_suffix (s : str) : lstrip s `suffix_of` s.
Proof.
  induction s as [|c s IH]; simpl; [done|].
  destruct (isspace c); [by apply suffix_cons_r | done].
Qed.

Lemma lstrip_head (s : str) (c : char) :
  head (lstrip s) = Some c -> isspace c = false.
Proof.
  induction s as [|a s IH]; simpl; [done|].
  destruct (isspace a) eqn:Ha; [done|].
  simpl. by intros [= <-].
Qed.

Lemma lstrip_whitespace (s : str) : whitespace_only s -> lstrip s = [].
Proof.
  induction 1 as [|c s Hc _ IH]; simpl; [done|]. by rewrite Hc.
Qed.

Lemma lstrip_nil_inv (s : str) : lstrip s = [] -> whitespace_only s.
Proof.
  induction s as [|c s IH]; simpl; [constructor|].
  destruct (isspace c) eqn:Hc; [|done].
  intros Hs. constructor; [done | by apply IH].
Qed.

Lemma rstrip_prefix (s : str) : rstrip s `prefix_of` s.
Proof.
  unfold rstrip. apply prefix_suffix_reverse.
  rewrite reverse_involutive. apply lstrip_suffix.
Qed.

Lemma rstrip_last (s : str) (c : char) :
  last (rstrip s) = Some c -> isspace c = false.
Proof.
  unfold rstrip. rewrite last_reverse. apply lstrip_head.
Qed.

Lemma prefix_head {A} (l k : list A) (x : A) :
  l `prefix_of` k -> head l = Some x -> head k = Some x.
Proof. intros [t ->]. by destruct l. Qed.

Lemma strip_trimmed (s : str) : trimmed (strip s).
Proof.
  split; intros c Hc.
  - apply (lstrip_head s). eapply prefix_head; [apply rstrip_prefix | done].
  - by apply (rstrip_last (lstrip s)).
Qed.

Lemma strip_whitespace (s : str) : whitespace_only s -> strip s = [].
Proof. intros Hs. unfold strip. by rewrite lstrip_whitespace. Qed.

Lemma strip_nil_inv (s : str) : strip s = [] -> whitespace_only s.
Proof.
  unfold strip, rstrip. intros Hs. apply lstrip_nil_inv.
  pose proof (lstrip_head s) as Hhead.
  destruct (lstrip s) as [|c t]; [done|]. exfalso.
  apply (f_equal reverse) in Hs. rewrite reverse_involutive in Hs.
  apply lstrip_nil_inv in Hs.
  unfold whitespace_only in Hs. rewrite Forall_forall in Hs.
  specialize (Hhead c eq_refl).
  rewrite (Hs c) in Hhead; [done|].
  apply elem_of_reverse. left.
Qed.

(** Stripping keeps the text between the first and the last character
    that is not whitespace, untouched. *)
Lemma strip_split (s : str) :
  exists l r, s = l ++ strip s ++ r /\ whitespace_only l /\ whitespace_only r.
Proof.
  assert (Hl : forall u : str, exists l, u = l ++ lstrip u /\ whitespace_only l).
  { induction u as [|c u [l [Hu Hw]]]; [exists []; by split; [|constructor] |]. simpl.
    destruct (isspace c) eqn:Hc.
    - exists (c :: l). split; [by rewrite Hu at 1 | by constructor].
    - exists []. by split; [|constructor]. }
  destruct (Hl s) as (l & Hs & Hwl).
  destruct (Hl (reverse (lstrip s))) as (r & Hr & Hwr).
  exists l, (reverse r). split; [|split]; [|done|].
  - rewrite Hs at 1. f_equal. unfold strip, rstrip.
    apply (f_equal reverse) in Hr.
    rewrite reverse_involutive, reverse_app in Hr. done.
  - unfold whitespace_only in *. rewrite Forall_forall in *.
    intros c Hc. apply Hwr. by apply elem_of_reverse.
Qed.

Lemma lstrip_app_whitespace (lead s : str) :
  whitespace_only lead -> lstrip (lead ++ s) = lstrip s.
Proof.
  induction 1 as [|c lead Hc _ IH]; simpl; [done|]. by rewrite Hc.
Qed.

Lemma lstrip_app_keep (s trail : str) :
  lstrip s <> [] -> lstrip (s ++ trail) = lstrip s ++ trail.
Proof.
  induction s as [|c s IH]; simpl; [done|].
  destruct (isspace c); [apply IH | done].
Qed.

Lemma whitespace_only_reverse (s : str) :
  whitespace_only s -> whitespace_only (reverse s).
Proof.
  unfold whitespace_only. rewrite !Forall_forall.
  intros Hs c Hc. apply Hs. by apply elem_of_reverse.
Qed.

Lemma rstrip_app_whitespace (s trail : str) :
  whitespace_only trail -> rstrip (s ++ trail) = rstrip s.
Proof.
  intros Htrail. unfold rstrip. rewrite reverse_app.
  by rewrite lstrip_app_whitespace; [|apply whitespace_only_reverse].
Qed.

(** Whitespace around a text does not reach the stripped result. *)
Lemma strip_padding (lead text trail : str) :
  whitespace_only lead -> whitespace_only trail ->
  strip (lead ++ text ++ trail) = strip text.
Proof.
  intros Hlead Htrail. unfold strip.
  rewrite lstrip_app_whitespace by done.
  destruct (lstrip text) as [|c t] eqn:Htext.
  - apply lstrip_nil_inv in Htext.
    rewrite lstrip_app_whitespace, (lstrip_whitespace trail) by done. done.
  - rewrite lstrip_app_keep by (by rewrite Htext).
    rewrite Htext. by apply rstrip_app_whitespace.
Qed.

Lemma strip_idempotent (s : str) : strip (strip s) = strip s.
Proof.
  destruct (strip_split s) as (lead & trail & Hs & Hlead & Htrail).
  rewrite Hs at 2. by rewrite strip_padding.
Qed.

(** [isspace] accepts exactly the characters of [python_whitespace]. *)
Lemma isspace_whitespace (c : char) :
  isspace c = true <-> c ∈ python_whitespace.
Proof.
  unfold isspace, python_whitespace.
  rewrite !elem_of_cons, elem_of_nil.
  rewrite !orb_true_iff, !andb_true_iff, !N.leb_le, !N.eqb_eq. lia.
Qed.

Lemma whitespace_only_listed (s : str) :
  Forall (fun c => c ∈ python_whitespace) s -> whitespace_only s.
Proof.
  unfold whitespace_only. rewrite !Forall_forall.
  intros Hs c Hc. by apply isspace_whitespace, Hs.
Qed.

Lemma lstrip_keep (s : str) :
  (forall c, head s = Some c -> isspace c = false) -> lstrip s = s.
Proof.
  destruct s as [|c s]; simpl; [done|].
  intros Hhead. by rewrite (Hhead c eq_refl).
Qed.

(** A text with no whitespace at either end is left as it is. *)
Lemma strip_trimmed_id (s : str) : trimmed s -> strip s = s.
Proof.
  intros [Hhead Hlast]. unfold strip, rstrip.
  rewrite (lstrip_keep s Hhead), lstrip_keep; [apply reverse_involutive|].
  intros c. rewrite head_reverse. apply Hlast.
Qed.

(** ** Running the script *)

Section Runs.
Context {libs : Libraries}.

Lemma get_story_model_run (p : Process) :
  get_story_model p = (inr (handle_in p), warmed p).
Proof.
  unfold get_story_model, st_cache_resource, warmed, handle_in.
  unfold mbind, Py_bind, gets. simpl.
  by destruct (resource_cache p).
Qed.

Lemma warmed_transport_log (p : Process) :
  transport_log (warmed p) = transport_log p.
Proof. unfold warmed. by destruct (resource_cache p). Qed.

Lemma warmed_genai_api_key (p : Process) :
  genai_api_key (warmed p) = genai_api_key p.
Proof. unfold warmed. by destruct (resource_cache p). Qed.

Lemma warmed_screen (p : Process) : screen (warmed p) = screen p.
Proof. unfold warmed. by destruct (resource_cache p). Qed.

Lemma warmed_rpcs (p : Process) : rpcs (warmed p) = rpcs p.
Proof. unfold warmed. by destruct (resource_cache p). Qed.

Lemma warmed_cache (p : Process) :
  resource_cache (warmed p) = Some (handle_in p).
Proof. unfold warmed, handle_in. by destruct (resource_cache p) eqn:E. Qed.

Lemma warmed_constructed (p : Process) :
  constructed (warmed p) =
    match resource_cache p with
    | Some _ => constructed p
    | None => S (constructed p)
    end.
Proof. unfold warmed. by destruct (resource_cache p). Qed.

(** The whole of [generate_story_from_image], one case per way out. *)
Lemma generate_story_run (image_bytes : bytes) (language : str) (p : Process) :
  generate_story_from_image image_bytes language p =
    match PIL_identify image_bytes with
    | None => (inl UnidentifiedImageError, warmed p)
    | Some fmt =>
        let req := story_request p fmt image_bytes language in
        let p' :=
          set_rpcs (rpcs p + genai_rpcs (length (transport_log p)) req)
            (set_transport_log (transport_log p ++ [req]) (warmed p)) in
        match genai_transport (length (transport_log p)) req with
        | inl cause => (inl (GenaiError cause), p')
        | inr (Candidate t) => (inr (strip t), p')
        | inr (NoText why) => (inl (ValueError why), p')
        end
    end.
Proof.
  unfold generate_story_from_image.
  unfold mbind at 1. unfold Py_bind at 1.
  rewrite get_story_model_run.
  unfold Image_open, generate_content, response_text.
  destruct (PIL_identify image_bytes) as [fmt|]; [|done].
  unfold mbind, Py_bind, mret, Py_ret, gets, modify, raise. cbn -[strip lit].
  rewrite warmed_transport_log, warmed_genai_api_key, warmed_rpcs.
  change (lit "You are an imaginative storyteller. " ++ _)
    with (instruction language).
  fold (story_request p fmt image_bytes language).
  destruct (genai_transport _ _) as [cause|[t|why]]; done.
Qed.

Lemma app_no_secrets (ui : Interaction) (p : Process) :
  secrets p = NoSecretsFile -> app ui p = (inl no_secrets, p).
Proof.
  intros Hnone. unfold app, st_secrets_get.
  unfold mbind, Py_bind, gets, raise. simpl. by rewrite Hnone.
Qed.

Lemma app_preview_fails (ui : Interaction) (p : Process) (e : PyExc) :
  secrets p <> NoSecretsFile ->
  preview_error ui = Some e ->
  app ui p = (inl e, configured p).
Proof.
  unfold preview_error, app, st_secrets_get, st_image, configured,
    genai_configure, GEMINI_API_KEY.
  intros Hfile Hpreview.
  destruct (uploaded_file ui) as [f|]; [|done].
  unfold mbind, Py_bind, mret, Py_ret, gets, modify, raise. simpl.
  destruct (secrets p) as [|key]; [done|]. rewrite Hpreview.
  by destruct (truthy key).
Qed.

Lemma app_inert (ui : Interaction) (p : Process) :
  secrets p <> NoSecretsFile ->
  preview_error ui = None ->
  may_generate p ui = false ->
  app ui p =
    (inr tt,
     set_screen (screen p ++ controls p ui ++ [PlaceholderMarkdown])
       (configured p)).
Proof.
  unfold preview_error, may_generate, app, st_secrets_get, st_image, controls,
    configured, genai_configure, render, GEMINI_API_KEY.
  intros Hfile Hpreview Hguard.
  destruct (secrets p) as [|key] eqn:Hsecrets; [done|].
  unfold mbind, Py_bind, mret, Py_ret, gets, modify, raise.
  cbn -[lit no_key_warning]. rewrite Hsecrets.
  destruct (truthy key) eqn:Hkey;
    destruct (uploaded_file ui) as [f|] eqn:Hupload;
    cbn -[lit no_key_warning] in *; rewrite ?Hpreview, ?Hsecrets;
    cbn -[lit no_key_warning]; rewrite ?Hguard, ?Hsecrets;
    unfold set_screen, set_genai_api_key; cbn -[lit no_key_warning];
    by rewrite <- ?app_assoc.
Qed.

Lemma app_generate (ui : Interaction) (p : Process) (f : UploadedFile) :
  may_generate p ui = true ->
  preview_error ui = None ->
  uploaded_file ui = Some f ->
  app ui p =
    match lang_map !! selected_lang ui with
    | None => (inl (KeyError (selected_lang ui)), at_guard p ui)
    | Some language =>
        match generate_story_from_image (getvalue f) language (at_guard p ui) with
        | (inr story_text, p') =>
            (inr tt, set_screen (screen p' ++ [story_markdown ui story_text]) p')
        | (inl e, p') => (inl e, p')
        end
    end.
Proof.
  unfold preview_error, may_generate, app, st_secrets_get, st_image, at_guard,
    controls, configured, genai_configure, render, subscript, story_markdown,
    GEMINI_API_KEY.
  intros Hguard Hpreview Hupload. rewrite Hupload in *.
  destruct (generate_clicked ui); [|done].
  destruct (secrets p) as [|key] eqn:Hsecrets; [done|].
  destruct (truthy key) eqn:Hkey; [|done].
  unfold mbind, Py_bind, mret, Py_ret, gets, modify, raise.
  cbn -[lit generate_story_from_image lang_map].
  rewrite Hsecrets. cbn -[lit generate_story_from_image lang_map].
  rewrite Hkey, Hpreview. cbn -[lit generate_story_from_image lang_map].
  rewrite ?Hsecrets, ?Hkey.
  unfold set_screen, set_genai_api_key.
  cbn -[lit generate_story_from_image lang_map].
  rewrite <- ?app_assoc. cbn -[lit generate_story_from_image lang_map].
  destruct (lang_map !! selected_lang ui) as [language|]; [|done].
  by destruct (generate_story_from_image _ _ _) as [[e|story_text] p'].
Qed.

Lemma rerun_app (ui : Interaction) (p : Process) :
  rerun ui p = app ui (set_screen [] p).
Proof. done. Qed.

(** What one invocation leaves behind in the process. *)
Lemma generate_story_effect (image_bytes : bytes) (language : str) (p : Process) :
  let p' := after (generate_story_from_image image_bytes language p) in
  resource_cache p' = Some (handle_in p)
  /\ constructed p' = constructed (warmed p)
  /\ transport_log p' = transport_log p ++ expected_calls p image_bytes language
  /\ GEMINI_API_KEY p' = GEMINI_API_KEY p
  /\ genai_api_key p' = genai_api_key p
  /\ screen p' = screen p.
Proof.
  cbv zeta. rewrite generate_story_run. unfold expected_calls.
  pose proof (warmed_cache p) as Hc.
  assert (Hk : GEMINI_API_KEY (warmed p) = GEMINI_API_KEY p)
    by (unfold warmed; by destruct (resource_cache p)).
  pose proof (warmed_genai_api_key p) as Hg.
  pose proof (warmed_screen p) as Hs.
  pose proof (warmed_transport_log p) as Hl.
  destruct (PIL_identify image_bytes) as [fmt|]; simpl.
  - by destruct (genai_transport _ _) as [cause|[t|why]]; simpl.
  - by rewrite app_nil_r.
Qed.

Lemma generate_story_new_calls (image_bytes : bytes) (language : str) (p : Process) :
  new_calls p (after (generate_story_from_image image_bytes language p))
  = expected_calls p image_bytes language.
Proof.
  unfold new_calls.
  destruct (generate_story_effect image_bytes language p) as (_ & _ & -> & _).
  apply drop_app_length.
Qed.


End Runs.

(** ** The generation call *)

Section Generation.
Context {libs : Libraries}.

Lemma not_decodable_None (image_bytes : bytes) :
  ~ decodable image_bytes -> PIL_identify image_bytes = None.
Proof. unfold decodable. apply eq_None_not_Some. Qed.

(** C1, as amended.  For every language and every image that decodes,
    [generate_story_from_image] either returns the text of the model's
    response with the whitespace at both ends removed, or lets the
    exception of the failed call or of the unusable response reach the
    caller (a generation failure).  The returned string has no
    whitespace at either end; it is empty exactly when the response text
    is empty or whitespace only, and such a response is returned as a
    successful empty story. *)
Theorem generate_story_outcome (image_bytes : bytes) (language : str) (p : Process) :
  decodable image_bytes ->
  let r := generate_story_from_image image_bytes language p in
  ((exists req t,
       new_calls p (after r) = [req]
       /\ genai_transport (length (transport_log p)) req = inr (Candidate t)
       /\ outcome r = inr (strip t)
       /\ trimmed (strip t)
       /\ (strip t = [] <-> whitespace_only t))
   \/ (exists e, outcome r = inl e /\ is_GenerationError e = true))
  /\ (forall req t,
        new_calls p (after r) = [req] ->
        genai_transport (length (transport_log p)) req = inr (Candidate t) ->
        whitespace_only t ->
        outcome r = inr []).
Proof.
  intros [fmt Hfmt]. cbv zeta.
  rewrite generate_story_new_calls. unfold expected_calls.
  rewrite generate_story_run, Hfmt. cbv zeta.
  split.
  - destruct (genai_transport _ _) as [cause|[t|why]] eqn:Hreply; simpl.
    + right. by eexists.
    + left. exists (story_request p fmt image_bytes language), t.
      repeat split; try done.
      * apply strip_trimmed.
      * apply strip_trimmed.
      * apply strip_nil_inv.
      * apply strip_whitespace.
    + right. by eexists.
  - intros req t [= <-] Hreply Hblank. rewrite Hreply. simpl.
    by rewrite strip_whitespace.
Qed.

(** C4.  Bytes that [Image.open] does not accept as an image make
    [generate_story_from_image] raise the decoder's exception, a
    validation error, and no call reaches the transport. *)
Theorem undecodable_image_rejected (image_bytes : bytes) (language : str)
    (p : Process) :
  ~ decodable image_bytes ->
  let r := generate_story_from_image image_bytes language p in
  outcome r = inl UnidentifiedImageError
  /\ (exists e, outcome r = inl e /\ is_ValidationError e = true)
  /\ new_calls p (after r) = []
  /\ transport_log (after r) = transport_log p.
Proof.
  intros Hbad%not_decodable_None. cbv zeta.
  rewrite generate_story_new_calls. unfold expected_calls.
  rewrite generate_story_run, Hbad. simpl.
  repeat split; [by eexists | apply warmed_transport_log].
Qed.



(** C7.  Every request an invocation sends carries the fixed template:
    the model is addressed as an imaginative storyteller, asked for a
    short narrative of about 3 to 5 paragraphs on the image, told to
    write it entirely in the requested language, and told not to
    describe the task.  An invocation whose image decodes does send it. *)
Theorem instruction_template (image_bytes : bytes) (language : str) (p : Process) :
  let r := generate_story_from_image image_bytes language p in
  Forall
    (fun req =>
       req_prompt req =
         lit "You are an imaginative storyteller. "
         ++ (lit "Look at the image and write a short, vivid narrative "
             ++ lit "(about 3" ++ [8211] ++ lit "5 paragraphs). ")
         ++ (lit "Write the story entirely in " ++ language ++ lit ". ")
         ++ lit "Do not describe the task, only tell the story.")
    (new_calls p (after r))
  /\ (decodable image_bytes -> new_calls p (after r) <> []).
Proof.
  cbv zeta. rewrite generate_story_new_calls. unfold expected_calls.
  split.
  - destruct (PIL_identify image_bytes) as [fmt|]; repeat constructor.
    rewrite <- !app_assoc. reflexivity.
  - by intros [fmt ->].
Qed.

(** C8.  When the image decodes and the model answers with text, the
    result is that text without the whitespace at its two ends, and
    nothing else of it is changed: if the text is a core between a lead
    and a trail made of tabs, line feeds, vertical tabs, form feeds,
    carriage returns, the separators FS to US, spaces and the Unicode
    spaces of [python_whitespace], and the core neither starts nor ends
    with such a character, the result is the core.  In particular, for
    language English and the response text [pixel_story], bare or padded
    as in [padded_pixel_story], the result is [pixel_story]. *)
Theorem story_is_stripped_text (image_bytes : bytes) (language : str)
    (p : Process) (fmt text : str) :
  PIL_identify image_bytes = Some fmt ->
  genai_transport (length (transport_log p))
    (story_request p fmt image_bytes language) = inr (Candidate text) ->
  let r := generate_story_from_image image_bytes language p in
  outcome r = inr (strip text)
  /\ trimmed (strip text)
  /\ (exists lead trail,
        text = lead ++ strip text ++ trail
        /\ whitespace_only lead /\ whitespace_only trail)
  /\ (forall lead core trail,
        text = lead ++ core ++ trail ->
        Forall (fun c => c ∈ python_whitespace) lead ->
        Forall (fun c => c ∈ python_whitespace) trail ->
        (forall c, head core = Some c -> c ∉ python_whitespace) ->
        (forall c, last core = Some c -> c ∉ python_whitespace) ->
        outcome r = inr core)
  /\ (language = lit "English" ->
      text = pixel_story \/ text = padded_pixel_story ->
      outcome r = inr (lit "A lonely pixel dreamed of color.")).
Proof.
  intros Hfmt Hreply. cbv zeta.
  rewrite generate_story_run, Hfmt. cbv zeta. rewrite Hreply. simpl.
  split; [done|]. split; [apply strip_trimmed|].
  split; [apply strip_split|]. split.
  - intros lead core trail -> Hlead Htrail Hhead Hlast.
    rewrite strip_padding by (by apply whitespace_only_listed).
    rewrite strip_trimmed_id; [done|]. split; intros c Hc.
    + apply not_true_is_false. rewrite isspace_whitespace. by apply Hhead.
    + apply not_true_is_false. rewrite isspace_whitespace. by apply Hlast.
  - by intros _ [->| ->].
Qed.

End Generation.

(** C10.  The instruction an invocation sends is the language argument
    placed, as it is, between two fixed texts: two invocations with the
    same language send the same instruction whatever the image bytes, the
    process and the libraries' behaviour, and any language value, in the
    supported set or not, is sent on when the image decodes. *)
Theorem instruction_depends_on_language_only :
  exists pre post : str,
    (forall (libs : Libraries) image_bytes language p req,
        req ∈ new_calls p (after (generate_story_from_image image_bytes language p)) ->
        req_prompt req = pre ++ language ++ post)
    /\ (forall (libs1 libs2 : Libraries) bytes1 bytes2 language p1 p2 req1 req2,
          req1 ∈ new_calls p1
                 (after (@generate_story_from_image libs1 bytes1 language p1)) ->
          req2 ∈ new_calls p2
                 (after (@generate_story_from_image libs2 bytes2 language p2)) ->
          req_prompt req1 = req_prompt req2)
    /\ (forall (libs : Libraries) image_bytes language p,
          decodable image_bytes ->
          exists req,
            new_calls p (after (generate_story_from_image image_bytes language p))
            = [req]
            /\ req_prompt req = pre ++ language ++ post).
Proof.
  exists (lit "You are an imaginative storyteller. Look at the image and write a short, vivid narrative (about 3"
          ++ [8211] ++ lit "5 paragraphs). Write the story entirely in "),
         (lit ". Do not describe the task, only tell the story.").
  assert (Hsent : forall (libs : Libraries) image_bytes language p req,
            req ∈ new_calls p (after (generate_story_from_image image_bytes language p)) ->
            req_prompt req = instruction language).
  { intros libs image_bytes language p req.
    rewrite generate_story_new_calls. unfold expected_calls.
    destruct (PIL_identify image_bytes) as [fmt|].
    - by intros ->%list_elem_of_singleton.
    - by intros ?%not_elem_of_nil. }
  assert (Hshape : forall language,
            instruction language =
              (lit "You are an imaginative storyteller. Look at the image and write a short, vivid narrative (about 3"
               ++ [8211] ++ lit "5 paragraphs). Write the story entirely in ")
              ++ language ++ lit ". Do not describe the task, only tell the story.").
  { intros language. unfold instruction. by rewrite <- !app_assoc. }
  split; [|split].
  - intros libs image_bytes language p req Hin.
    by rewrite (Hsent _ _ _ _ _ Hin), Hshape.
  - intros libs1 libs2 bytes1 bytes2 language p1 p2 req1 req2 Hin1 Hin2.
    by rewrite (Hsent _ _ _ _ _ Hin1), (Hsent _ _ _ _ _ Hin2).
  - intros libs image_bytes language p [fmt Hfmt].
    rewrite generate_story_new_calls. unfold expected_calls. rewrite Hfmt.
    eexists. split; [done|]. simpl. apply Hshape.
Qed.

(** ** The memoized model handle *)

Section Handle.
Context {libs : Libraries}.

Lemma expected_calls_handle (p : Process) (image_bytes : bytes) (language : str) :
  Forall (fun req => req_model req = handle_in p)
    (expected_calls p image_bytes language).
Proof.
  unfold expected_calls.
  destruct (PIL_identify image_bytes); repeat constructor.
Qed.

(** A call in a process whose cache is filled builds nothing. *)
Lemma generate_story_cached (image_bytes : bytes) (language : str)
    (p : Process) (h : GenerativeModel) :
  resource_cache p = Some h ->
  let p' := after (generate_story_from_image image_bytes language p) in
  resource_cache p' = Some h
  /\ constructed p' = constructed p
  /\ Forall (fun req => req_model req = h) (new_calls p p').
Proof.
  intros Hhit. cbv zeta. rewrite generate_story_new_calls.
  destruct (generate_story_effect image_bytes language p) as (Hc & Hn & _).
  pose proof (expected_calls_handle p image_bytes language) as Hreq.
  rewrite warmed_constructed in Hn.
  unfold handle_in in *. rewrite Hhit in *. done.
Qed.

Lemma new_calls_trans (p q r : Process) (sent sent' : list Request) :
  transport_log q = transport_log p ++ sent ->
  transport_log r = transport_log q ++ sent' ->
  new_calls p r = new_calls p q ++ new_calls q r.
Proof.
  unfold new_calls. intros Hq Hr. rewrite Hr, Hq.
  rewrite <- app_assoc, !drop_app_length.
  by rewrite app_assoc, drop_app_length.
Qed.

Lemma call_each_log (calls : list (bytes * str)) (p : Process) :
  exists sent, transport_log (call_each calls p).2 = transport_log p ++ sent.
Proof.
  revert p. induction calls as [|[image_bytes language] rest IH]; intros p.
  - exists []. simpl. by rewrite app_nil_r.
  - simpl.
    destruct (IH (after (generate_story_from_image image_bytes language p)))
      as [sent Hsent].
    destruct (generate_story_effect image_bytes language p)
      as (_ & _ & Hlog & _).
    eexists. rewrite Hsent, Hlog, <- app_assoc. done.
Qed.

Lemma call_each_cached (calls : list (bytes * str)) (p : Process)
    (h : GenerativeModel) :
  resource_cache p = Some h ->
  let p' := (call_each calls p).2 in
  resource_cache p' = Some h
  /\ constructed p' = constructed p
  /\ Forall (fun req => req_model req = h) (new_calls p p').
Proof.
  revert p. induction calls as [|[image_bytes language] rest IH];
    intros p Hhit; cbv zeta.
  - simpl. unfold new_calls. rewrite drop_all. by repeat split.
  - simpl.
    set (q := after (generate_story_from_image image_bytes language p)).
    destruct (generate_story_cached image_bytes language p h Hhit)
      as (Hc & Hn & Hreq). fold q in Hc, Hn, Hreq.
    destruct (IH q Hc) as (Hc' & Hn' & Hreq').
    split; [done|]. split; [congruence|].
    destruct (generate_story_effect image_bytes language p)
      as (_ & _ & Hlog & _). fold q in Hlog.
    destruct (call_each_log rest q) as [sent Hsent].
    rewrite (new_calls_trans p q _ _ _ Hlog Hsent).
    by apply Forall_app.
Qed.

(** The first call fills the cache; the calls after it find it filled. *)
Lemma call_each_cold (image_bytes : bytes) (language : str)
    (rest : list (bytes * str)) (p : Process) :
  resource_cache p = None ->
  let h := {| model_name := lit "gemini-1.5-flash"; handle_id := constructed p |} in
  let p' := (call_each ((image_bytes, language) :: rest) p).2 in
  resource_cache p' = Some h
  /\ constructed p' = S (constructed p)
  /\ Forall (fun req => req_model req = h) (new_calls p p').
Proof.
  intros Hmiss. cbv zeta. simpl.
  set (q := after (generate_story_from_image image_bytes language p)).
  destruct (generate_story_effect image_bytes language p)
    as (Hc & Hn & Hlog & _). fold q in Hc, Hn, Hlog.
  pose proof (expected_calls_handle p image_bytes language) as Hreq.
  rewrite warmed_constructed in Hn.
  unfold handle_in in Hc, Hreq. rewrite Hmiss in Hc, Hn, Hreq.
  destruct (call_each_cached rest q _ Hc) as (Hc' & Hn' & Hreq').
  split; [done|]. split; [congruence|].
  destruct (call_each_log rest q) as [sent Hsent].
  rewrite (new_calls_trans p q _ _ _ Hlog Hsent).
  apply Forall_app. split; [|done].
  unfold new_calls. by rewrite Hlog, drop_app_length.
Qed.

End Handle.

(** ** The page around the call *)

Section Page.
Context {libs : Libraries}.

Lemma key_set_screen (w : list Widget) (p : Process) :
  GEMINI_API_KEY (set_screen w p) = GEMINI_API_KEY p.
Proof. done. Qed.

Lemma configured_set_screen (w : list Widget) (p : Process) :
  configured (set_screen w p) = set_screen w (configured p).
Proof.
  unfold configured. rewrite key_set_screen.
  by destruct (truthy (GEMINI_API_KEY p)).
Qed.

Lemma at_guard_fresh_page (p : Process) (ui : Interaction) :
  at_guard (set_screen [] p) ui = set_screen (controls p ui) (configured p).
Proof.
  unfold at_guard. rewrite configured_set_screen. unfold controls.
  by rewrite key_set_screen.
Qed.

(** A rerun without a secrets file ends at the first line that reads
    the secrets. *)
Lemma rerun_no_secrets (ui : Interaction) (p : Process) :
  secrets p = NoSecretsFile ->
  rerun ui p = (inl no_secrets, set_screen [] p).
Proof. intros Hnone. by rewrite rerun_app, app_no_secrets. Qed.

(** A rerun whose upload cannot be previewed ends there. *)
Lemma rerun_preview_fails (ui : Interaction) (p : Process) (e : PyExc) :
  secrets p <> NoSecretsFile ->
  preview_error ui = Some e ->
  rerun ui p = (inl e, set_screen [] (configured p)).
Proof.
  intros Hfile Hpreview.
  rewrite rerun_app, (app_preview_fails _ _ e); [|done..].
  by rewrite configured_set_screen.
Qed.

(** A rerun whose guard is false: nothing but rendering happens. *)
Lemma rerun_inert (ui : Interaction) (p : Process) :
  secrets p <> NoSecretsFile ->
  preview_error ui = None ->
  may_generate p ui = false ->
  rerun ui p =
    (inr tt,
     set_screen (controls p ui ++ [PlaceholderMarkdown]) (configured p)).
Proof.
  intros Hfile Hpreview Hguard. rewrite rerun_app, app_inert; [|done..].
  rewrite configured_set_screen. unfold controls.
  by rewrite key_set_screen.
Qed.

(** A rerun whose guard is true. *)
Lemma rerun_generate (ui : Interaction) (p : Process) (f : UploadedFile) :
  may_generate p ui = true ->
  preview_error ui = None ->
  uploaded_file ui = Some f ->
  let q := set_screen (controls p ui) (configured p) in
  rerun ui p =
    match lang_map !! selected_lang ui with
    | None => (inl (KeyError (selected_lang ui)), q)
    | Some language =>
        match generate_story_from_image (getvalue f) language q with
        | (inr story_text, p') =>
            (inr tt, set_screen (screen p' ++ [story_markdown ui story_text]) p')
        | (inl e, p') => (inl e, p')
        end
    end.
Proof.
  intros Hguard Hpreview Hfile. cbv zeta.
  rewrite rerun_app, (app_generate _ _ f); [|done..].
  by rewrite at_guard_fresh_page.
Qed.

Lemma truthy_secrets (p : Process) :
  truthy (GEMINI_API_KEY p) = true -> secrets p <> NoSecretsFile.
Proof. unfold GEMINI_API_KEY. by destruct (secrets p). Qed.

Lemma may_generate_true (p : Process) (ui : Interaction) :
  may_generate p ui = true <->
  generate_clicked ui = true
  /\ is_Some (uploaded_file ui)
  /\ truthy (GEMINI_API_KEY p) = true.
Proof.
  unfold may_generate. rewrite !andb_true_iff, bool_decide_eq_true.
  rewrite <- not_eq_None_Some. tauto.
Qed.

(** What a rerun can do to the cache, the handle count and the call
    log: nothing, or what one call of [generate_story_from_image] does. *)
Lemma configured_core (p : Process) : same_core (configured p) p.
Proof. unfold same_core, configured. by destruct (truthy (GEMINI_API_KEY p)). Qed.

(** What a rerun can do to the cache, the handle count and the call
    log: nothing, or what one call of [generate_story_from_image] does. *)
Lemma rerun_core (ui : Interaction) (p : Process) :
  same_core (after (rerun ui p)) p
  \/ exists image_bytes language q,
       same_core q p
       /\ same_core (after (rerun ui p))
            (after (generate_story_from_image image_bytes language q)).
Proof.
  destruct (secrets p) as [|key] eqn:Hsecrets.
  { left. by rewrite rerun_no_secrets. }
  assert (Hfile : secrets p <> NoSecretsFile) by congruence.
  destruct (preview_error ui) as [e|] eqn:Hpreview.
  { left. rewrite (rerun_preview_fails ui p e); [|done..].
    apply configured_core. }
  destruct (may_generate p ui) eqn:Hguard.
  - pose proof Hguard as (_ & [f Hupload] & _)%may_generate_true.
    rewrite (rerun_generate ui p f Hguard Hpreview Hupload). cbv zeta.
    set (q := set_screen (controls p ui) (configured p)).
    assert (Hq : same_core q p) by apply configured_core.
    destruct (lang_map !! selected_lang ui) as [language|]; [|by left].
    right. exists (getvalue f), language, q. split; [done|].
    by destruct (generate_story_from_image _ _ _) as [[e|story_text] p'].
  - left. rewrite rerun_inert; [|done..]. apply configured_core.
Qed.

Lemma one_handle_same_core (p q : Process) :
  same_core q p -> one_handle p -> one_handle q.
Proof. unfold same_core, one_handle. by intros (-> & -> & ->). Qed.

Lemma one_handle_call (image_bytes : bytes) (language : str) (p : Process) :
  one_handle p ->
  one_handle (after (generate_story_from_image image_bytes language p)).
Proof.
  intros [Hcache Hlog].
  destruct (generate_story_effect image_bytes language p)
    as (Hc & Hn & Hl & _).
  pose proof (expected_calls_handle p image_bytes language) as Hreq.
  rewrite warmed_constructed in Hn.
  assert (Hh : handle_in p = the_handle).
  { unfold handle_in, the_handle.
    destruct Hcache as [[-> ->]|[-> _]]; done. }
  rewrite Hh in Hc, Hreq.
  split.
  - right. split; [done|]. rewrite Hn.
    destruct Hcache as [[-> ->]|[-> ->]]; done.
  - rewrite Hl. by apply Forall_app.
Qed.

Lemma reachable_one_handle (p : Process) : reachable p -> one_handle p.
Proof.
  induction 1 as [secret| |p ui _ IH|p image_bytes language _ IH].
  - split; [by left | constructor].
  - split; [by left | constructor].
  - destruct (rerun_core ui p) as [Hsame|(b & l & q & Hq & Hsame)].
    + by apply (one_handle_same_core p).
    + eapply one_handle_same_core; [exact Hsame|].
      apply one_handle_call. by apply (one_handle_same_core p).
  - by apply one_handle_call.
Qed.

Lemma same_core_new (p q : Process) :
  same_core q p -> new_calls p q = [] /\ new_handles p q = 0%nat.
Proof.
  unfold same_core, new_calls, new_handles. intros (_ & -> & ->).
  split; [apply drop_all | lia].
Qed.

Lemma lang_map_supported (sel : str) :
  supported sel -> lang_map !! sel = Some sel.
Proof.
  unfold supported, lang_tabs. rewrite !elem_of_cons, elem_of_nil.
  intros [->|[->|[->|[]]]]; reflexivity.
Qed.

Lemma lang_map_unsupported (sel : str) :
  ~ supported sel -> lang_map !! sel = None.
Proof.
  unfold supported, lang_tabs, lang_map. rewrite !elem_of_cons, elem_of_nil.
  intros Hsel.
  rewrite !lookup_insert_ne by (intros <-; tauto).
  apply lookup_empty.
Qed.

Lemma lang_map_lookup (sel language : str) :
  lang_map !! sel = Some language -> supported sel /\ language = sel.
Proof.
  intros Hlook. destruct (decide (supported sel)) as [Hsel|Hsel].
  - rewrite (lang_map_supported sel Hsel) in Hlook. by injection Hlook.
  - by rewrite (lang_map_unsupported sel Hsel) in Hlook.
Qed.

(** The calls a rerun makes. *)
Lemma rerun_new_calls (ui : Interaction) (p : Process) :
  new_calls p (after (rerun ui p)) =
    if may_generate p ui then
      match preview_error ui, uploaded_file ui, lang_map !! selected_lang ui with
      | None, Some f, Some language =>
          expected_calls (set_screen (controls p ui) (configured p))
            (getvalue f) language
      | _, _, _ => []
      end
    else [].
Proof.
  destruct (secrets p) as [|key] eqn:Hsecrets.
  { rewrite rerun_no_secrets by done.
    assert (Hguard : may_generate p ui = false).
    { unfold may_generate, GEMINI_API_KEY. rewrite Hsecrets. apply andb_false_r. }
    rewrite Hguard. by apply same_core_new. }
  assert (Hfile : secrets p <> NoSecretsFile) by congruence.
  destruct (preview_error ui) as [e|] eqn:Hpreview.
  { rewrite (rerun_preview_fails ui p e) by done.
    destruct (may_generate p ui); apply same_core_new, configured_core. }
  destruct (may_generate p ui) eqn:Hguard.
  - pose proof Hguard as (_ & [f Hupload] & _)%may_generate_true.
    rewrite (rerun_generate ui p f Hguard Hpreview Hupload), Hupload. cbv zeta.
    set (q := set_screen (controls p ui) (configured p)).
    assert (Hq : same_core q p) by apply configured_core.
    destruct (lang_map !! selected_lang ui) as [language|].
    + rewrite <- (generate_story_new_calls (getvalue f) language q).
      unfold new_calls. destruct Hq as (_ & _ & ->).
      by destruct (generate_story_from_image _ _ _) as [[e|story_text] p'].
    + by apply same_core_new.
  - rewrite rerun_inert; [|done..]. apply same_core_new, configured_core.
Qed.

End Page.

(** ** The credential, the language and the guard *)

Section Guards.
Context {libs : Libraries}.

Lemma controls_button (p : Process) (ui : Interaction) :
  StButton (lit "Generate Story")
    (bool_decide (uploaded_file ui = None) || negb (truthy (GEMINI_API_KEY p)))
  ∈ controls p ui.
Proof. unfold controls. rewrite !elem_of_app, list_elem_of_singleton. tauto. Qed.

Lemma controls_warning (p : Process) (ui : Interaction) :
  truthy (GEMINI_API_KEY p) = false ->
  StWarning no_key_warning ∈ controls p ui.
Proof.
  intros Hkey. unfold controls. rewrite Hkey, !elem_of_app, !list_elem_of_singleton.
  tauto.
Qed.

Lemma rerun_screen_controls (ui : Interaction) (p : Process) (w : Widget) :
  secrets p <> NoSecretsFile ->
  preview_error ui = None ->
  may_generate p ui = false ->
  w ∈ controls p ui -> w ∈ screen (after (rerun ui p)).
Proof.
  intros Hfile Hpreview Hguard Hw. rewrite rerun_inert; [|done..]. simpl.
  apply elem_of_app. by left.
Qed.

Lemma no_key_inert (p : Process) (ui : Interaction) :
  truthy (GEMINI_API_KEY p) = false -> may_generate p ui = false.
Proof. unfold may_generate. intros ->. apply andb_false_r. Qed.

Lemma no_file_inert (p : Process) (ui : Interaction) :
  uploaded_file ui = None -> may_generate p ui = false.
Proof.
  unfold may_generate. intros ->. rewrite bool_decide_eq_false_2 by tauto.
  by rewrite andb_false_r.
Qed.

Lemma configured_rpcs (p : Process) : rpcs (configured p) = rpcs p.
Proof. unfold configured. by destruct (truthy (GEMINI_API_KEY p)). Qed.

(** A rerun that does not reach the generation call puts nothing on the
    wire and leaves the cache, the handle count and the call log alone. *)
Lemma rerun_untouched (ui : Interaction) (p : Process) :
  secrets p = NoSecretsFile
  \/ is_Some (preview_error ui)
  \/ may_generate p ui = false
  \/ ~ supported (selected_lang ui) ->
  same_core (after (rerun ui p)) p /\ rpcs (after (rerun ui p)) = rpcs p.
Proof.
  intros Hwhy.
  destruct (secrets p) as [|key] eqn:Hsecrets.
  { by rewrite rerun_no_secrets. }
  assert (Hfile : secrets p <> NoSecretsFile) by congruence.
  destruct (preview_error ui) as [e|] eqn:Hpreview.
  { rewrite (rerun_preview_fails ui p e); [|done..]. simpl.
    split; [apply configured_core | apply configured_rpcs]. }
  destruct (may_generate p ui) eqn:Hguard.
  - destruct Hwhy as [?|[[? ?]|[?|Hsel]]]; [done..|].
    pose proof Hguard as (_ & [f Hupload] & _)%may_generate_true.
    rewrite (rerun_generate ui p f Hguard Hpreview Hupload). cbv zeta.
    rewrite (lang_map_unsupported _ Hsel). simpl.
    split; [apply configured_core | apply configured_rpcs].
  - rewrite rerun_inert; [|done..]. simpl.
    split; [apply configured_core | apply configured_rpcs].
Qed.

(** C3, as amended.  [generate_story_from_image] does not check the
    language: whatever its value, when the image decodes the call is
    made with that value in the instruction.  The supported set is kept
    by the page: the language it passes is [lang_map] at the selected
    language, which for English, Amharic and Chinese is the selection
    itself.  A run that passes the guard with a selection outside the set
    never enters the function: it builds no handle, makes no call and
    puts nothing on the wire; it ends with [KeyError], a validation
    error, when the preview of the upload renders, and with the preview's
    exception otherwise.  So every call a page run makes names a
    supported language. *)
Theorem language_checked_by_page :
  (forall image_bytes language p,
      decodable image_bytes ->
      exists req,
        new_calls p (after (generate_story_from_image image_bytes language p))
        = [req]
        /\ req_prompt req = instruction language)
  /\ (forall sel, supported sel -> lang_map !! sel = Some sel)
  /\ (forall ui p,
        may_generate p ui = true ->
        ~ supported (selected_lang ui) ->
        let r := rerun ui p in
        new_calls p (after r) = []
        /\ new_handles p (after r) = 0%nat
        /\ new_rpcs p (after r) = 0%nat
        /\ (preview_error ui = None ->
            outcome r = inl (KeyError (selected_lang ui))
            /\ is_ValidationError (KeyError (selected_lang ui)) = true)
        /\ (forall e, preview_error ui = Some e -> outcome r = inl e))
  /\ (forall ui p req,
        req ∈ new_calls p (after (rerun ui p)) ->
        supported (selected_lang ui)
        /\ req_prompt req = instruction (selected_lang ui)).
Proof.
  split; [|split; [|split]].
  - intros image_bytes language p [fmt Hfmt].
    rewrite generate_story_new_calls. unfold expected_calls. rewrite Hfmt.
    by eexists.
  - apply lang_map_supported.
  - intros ui p Hguard Hsel. cbv zeta.
    destruct (rerun_untouched ui p) as [Hcore Hrpcs]; [tauto|].
    apply same_core_new in Hcore as [Hcalls Hhandles].
    split; [done|]. split; [done|].
    split; [unfold new_rpcs; rewrite Hrpcs; lia|].
    pose proof Hguard as (_ & [f Hupload] & Hkey)%may_generate_true.
    apply truthy_secrets in Hkey. split.
    + intros Hpreview.
      rewrite (rerun_generate ui p f Hguard Hpreview Hupload). cbv zeta.
      by rewrite (lang_map_unsupported _ Hsel).
    + intros e Hpreview. by rewrite (rerun_preview_fails ui p e).
  - intros ui p req. rewrite rerun_new_calls.
    destruct (may_generate p ui); [|by intros ?%not_elem_of_nil].
    destruct (preview_error ui); [by intros ?%not_elem_of_nil|].
    destruct (uploaded_file ui) as [f|]; [|by intros ?%not_elem_of_nil].
    destruct (lang_map !! selected_lang ui) as [language|] eqn:Hlook;
      [|by intros ?%not_elem_of_nil].
    apply lang_map_lookup in Hlook as [Hsel ->].
    unfold expected_calls.
    destruct (PIL_identify (getvalue f)) as [fmt|];
      [|by intros ?%not_elem_of_nil].
    by intros ->%list_elem_of_singleton.
Qed.

(** C9, what the script does.  A run of the page enters the generation
    call only when an image is uploaded and a credential is configured
    (and the button reports a click): a run that makes a call or builds
    a handle had all three.  In every other state the generation call is
    out of reach: the cache, the handle count and the call log stay as
    they were and nothing goes on the wire.  When the secrets can be read
    and the preview of the upload renders, such a run ends normally and
    shows the placeholder, with the button disabled when the image or
    the credential is missing and the warning when the credential is
    missing.  A run without a secrets file ends at the line that reads
    the secrets, and a run whose upload cannot be previewed ends at the
    preview: both with an exception and an empty page, so without the
    warning.  With image, credential and click present, a supported
    language selected and the preview rendered, the call is entered. *)
Theorem generation_guarded (ui : Interaction) (p : Process) :
  let r := rerun ui p in
  (new_calls p (after r) <> [] \/ new_handles p (after r) <> 0%nat ->
   is_Some (uploaded_file ui)
   /\ truthy (GEMINI_API_KEY p) = true
   /\ generate_clicked ui = true)
  /\ (uploaded_file ui = None \/ truthy (GEMINI_API_KEY p) = false
      \/ generate_clicked ui = false ->
      same_core (after r) p /\ new_rpcs p (after r) = 0%nat)
  /\ (secrets p <> NoSecretsFile ->
      preview_error ui = None ->
      (uploaded_file ui = None \/ truthy (GEMINI_API_KEY p) = false
       \/ generate_clicked ui = false ->
       outcome r = inr tt
       /\ screen (after r) = controls p ui ++ [PlaceholderMarkdown])
      /\ (uploaded_file ui = None \/ truthy (GEMINI_API_KEY p) = false ->
          StButton (lit "Generate Story") true ∈ screen (after r))
      /\ (truthy (GEMINI_API_KEY p) = false ->
          StWarning no_key_warning ∈ screen (after r)))
  /\ (secrets p = NoSecretsFile ->
      outcome r = inl no_secrets /\ screen (after r) = [])
  /\ (secrets p <> NoSecretsFile ->
      forall e, preview_error ui = Some e ->
      outcome r = inl e /\ screen (after r) = [])
  /\ (forall f,
        uploaded_file ui = Some f ->
        truthy (GEMINI_API_KEY p) = true ->
        generate_clicked ui = true ->
        supported (selected_lang ui) ->
        preview_error ui = None ->
        resource_cache (after r) = Some (handle_in p)
        /\ (decodable (getvalue f) -> length (new_calls p (after r)) = 1%nat)).
Proof.
  cbv zeta.
  assert (Hoff : uploaded_file ui = None \/ truthy (GEMINI_API_KEY p) = false
                 \/ generate_clicked ui = false ->
                 may_generate p ui = false).
  { intros [Hupload|[Hkey|Hclick]].
    - by apply no_file_inert.
    - by apply no_key_inert.
    - unfold may_generate. by rewrite Hclick. }
  split; [|split; [|split; [|split; [|split]]]].
  - intros Hdone.
    destruct (may_generate p ui) eqn:Hguard.
    + apply may_generate_true in Hguard. tauto.
    + destruct (rerun_untouched ui p) as [Hcore _]; [tauto|].
      apply same_core_new in Hcore as [Hc Hh]. tauto.
  - intros Hmissing.
    destruct (rerun_untouched ui p) as [Hcore Hrpcs]; [by auto|].
    split; [done|]. unfold new_rpcs. rewrite Hrpcs. lia.
  - intros Hfile Hpreview. split; [|split].
    + intros Hmissing. rewrite rerun_inert; auto.
    + intros Hmissing.
      assert (Hguard : may_generate p ui = false) by (apply Hoff; tauto).
      pose proof (rerun_screen_controls ui p _ Hfile Hpreview Hguard
                    (controls_button p ui)) as Hb.
      destruct Hmissing as [Hupload|Hkey].
      * by rewrite Hupload in Hb.
      * by rewrite Hkey, orb_true_r in Hb.
    + intros Hkey.
      apply rerun_screen_controls; [done|done|by apply no_key_inert|].
      by apply controls_warning.
  - intros Hnone. by rewrite rerun_no_secrets.
  - intros Hfile e Hpreview. by rewrite (rerun_preview_fails ui p e).
  - intros f Hupload Hkey Hclick Hsel Hpreview.
    assert (Hguard : may_generate p ui = true).
    { apply may_generate_true. by rewrite Hupload. }
    rewrite rerun_new_calls, Hguard, Hpreview, Hupload,
      (lang_map_supported _ Hsel).
    rewrite (rerun_generate ui p f Hguard Hpreview Hupload). cbv zeta.
    rewrite (lang_map_supported _ Hsel).
    set (q := set_screen (controls p ui) (configured p)).
    destruct (generate_story_effect (getvalue f) (selected_lang ui) q)
      as (Hc & _).
    assert (Hh : handle_in q = handle_in p).
    { unfold q, handle_in, configured. by destruct (truthy (GEMINI_API_KEY p)). }
    rewrite Hh in Hc. split.
    + by destruct (generate_story_from_image _ _ _) as [[e|story_text] p'].
    + intros [fmt Hfmt]. unfold expected_calls. by rewrite Hfmt.
Qed.

End Guards.

(** ** One handle for the life of the process *)

Section OneHandle.
Context {libs : Libraries}.

(** C6.  The model handle is built at most once per process.  Every
    state the process reaches has built no handle and has an empty cache,
    or has built one handle and holds it in the cache; every call sent so
    far went through it.  Calls made in a process whose cache is filled
    build nothing and go through the cached handle.  Across two or more
    calls made one after the other in a process whose cache is still
    empty, the handle is built by the first call and by none after it:
    after each of the calls exactly one handle has been built since the
    start and the cache holds that same handle, which is the one every
    call of the sequence was sent through. *)
Theorem model_handle_built_once :
  (forall p,
      reachable p ->
      (constructed p <= 1)%nat
      /\ (resource_cache p = None /\ constructed p = 0%nat
          \/ resource_cache p = Some the_handle /\ constructed p = 1%nat)
      /\ Forall (fun req => req_model req = the_handle) (transport_log p))
  /\ (forall (calls : list (bytes * str)) (p : Process) (h : GenerativeModel),
        resource_cache p = Some h ->
        let p' := (call_each calls p).2 in
        new_handles p p' = 0%nat
        /\ resource_cache p' = Some h
        /\ Forall (fun req => req_model req = h) (new_calls p p'))
  /\ (forall (calls : list (bytes * str)) (p : Process),
        resource_cache p = None ->
        (2 <= length calls)%nat ->
        let h := {| model_name := lit "gemini-1.5-flash";
                    handle_id := constructed p |} in
        (forall k, (1 <= k <= length calls)%nat ->
           let pk := (call_each (take k calls) p).2 in
           new_handles p pk = 1%nat /\ resource_cache pk = Some h)
        /\ Forall (fun req => req_model req = h)
             (new_calls p (call_each calls p).2)).
Proof.
  split; [|split].
  - intros p [Hcache Hlog]%reachable_one_handle.
    split; [|done].
    destruct Hcache as [[_ ->]|[_ ->]]; lia.
  - intros calls p h Hhit. cbv zeta.
    destruct (call_each_cached calls p h Hhit) as (Hc & Hn & Hreq).
    split; [|done]. unfold new_handles. rewrite Hn. lia.
  - intros calls p Hmiss Hlen. cbv zeta. split.
    + intros k Hk.
      destruct calls as [|[image_bytes language] rest]; [simpl in Hlen; lia|].
      destruct k as [|k]; [lia|]. rewrite firstn_cons.
      destruct (call_each_cold image_bytes language (take k rest) p Hmiss)
        as (Hc & Hn & _).
      split; [|done]. unfold new_handles. rewrite Hn. lia.
    + destruct calls as [|[image_bytes language] rest]; [simpl in Hlen; lia|].
      by destruct (call_each_cold image_bytes language rest p Hmiss)
        as (_ & _ & Hreq).
Qed.

End OneHandle.

(** ** The claims on concrete runs *)

Lemma png_decodable (reply : str + Response) :
  @decodable (stub_libs reply) png_1x1.
Proof. by exists (lit "PNG"). Qed.

Lemma not_an_image_undecodable (reply : str + Response) :
  ~ @decodable (stub_libs reply) not_an_image.
Proof. by intros [fmt Hfmt]. Qed.

Lemma klingon_unsupported : ~ supported (lit "Klingon").
Proof.
  unfold supported, lang_tabs. rewrite !elem_of_cons, elem_of_nil.
  by intros [|[|[|]]].
Qed.

Lemma english_supported : supported (lit "English").
Proof. unfold supported, lang_tabs. left. Qed.

(** C1, the claim as stated fails: English is supported, the pixel
    decodes, the model answers with whitespace only, and the result is a
    successful empty story, not a generation error. *)
Lemma empty_story_is_success :
  supported (lit "English")
  /\ @decodable blank_libs png_1x1
  /\ whitespace_only (lit "  " ++ [10])
  /\ outcome (@generate_story_from_image blank_libs png_1x1 (lit "English")
                configured_process) = inr [].
Proof.
  split; [exact english_supported|].
  split; [apply png_decodable|].
  split; [by repeat constructor | reflexivity].
Qed.

(** A blank response to the pixel comes back as the empty story. *)
Lemma generate_story_outcome_witness :
  @decodable blank_libs png_1x1
  /\ outcome (@generate_story_from_image blank_libs png_1x1 (lit "English")
                configured_process) = inr [].
Proof.
  split; [apply png_decodable|].
  destruct (@generate_story_outcome blank_libs png_1x1 (lit "English")
              configured_process (png_decodable _)) as [_ Hblank].
  eapply Hblank; [reflexivity | reflexivity | by repeat constructor].
Defined.


(** C3, the claim as stated fails: Klingon is not a supported language,
    yet a direct call returns the story and has sent one call, whose
    instruction names Klingon. *)
Lemma unsupported_language_sent :
  ~ supported (lit "Klingon")
  /\ outcome (@generate_story_from_image pixel_libs png_1x1 (lit "Klingon")
                configured_process) = inr pixel_story
  /\ req_prompt <$> new_calls configured_process
       (after (@generate_story_from_image pixel_libs png_1x1 (lit "Klingon")
                 configured_process))
     = [instruction (lit "Klingon")].
Proof. split; [exact klingon_unsupported|]. split; reflexivity. Qed.

(** Klingon selected on the page: [KeyError], and nothing is sent. *)
Lemma language_checked_by_page_witness :
  may_generate (boot (Some a_key)) (pressed (lit "Klingon")) = true
  /\ ~ supported (lit "Klingon")
  /\ outcome (@rerun pixel_libs (pressed (lit "Klingon")) (boot (Some a_key)))
     = inl (KeyError (lit "Klingon"))
  /\ new_calls (boot (Some a_key))
       (after (@rerun pixel_libs (pressed (lit "Klingon")) (boot (Some a_key))))
     = [].
Proof.
  split; [reflexivity|]. split; [exact klingon_unsupported|].
  destruct (@language_checked_by_page pixel_libs) as (_ & _ & Hpage & _).
  destruct (Hpage (pressed (lit "Klingon")) (boot (Some a_key)) eq_refl
              klingon_unsupported) as (Hcalls & _ & _ & Hout & _).
  exact (conj (proj1 (Hout eq_refl)) Hcalls).
Defined.

(** Five bytes of text instead of an image. *)
Lemma undecodable_image_rejected_witness :
  ~ @decodable pixel_libs not_an_image
  /\ outcome (@generate_story_from_image pixel_libs not_an_image (lit "English")
                configured_process) = inl UnidentifiedImageError
  /\ new_calls configured_process
       (after (@generate_story_from_image pixel_libs not_an_image
                 (lit "English") configured_process)) = [].
Proof.
  split; [apply not_an_image_undecodable|].
  destruct (@undecodable_image_rejected pixel_libs not_an_image (lit "English")
              configured_process (not_an_image_undecodable _))
    as (Hout & _ & Hcalls & _).
  exact (conj Hout Hcalls).
Defined.



(** Three calls after boot: one handle after the first and after the last. *)
Lemma model_handle_built_once_witness :
  resource_cache (boot (Some a_key)) = None
  /\ (2 <= length three_calls)%nat
  /\ new_handles (boot (Some a_key))
       (@call_each pixel_libs (take 1 three_calls) (boot (Some a_key))).2 = 1%nat
  /\ new_handles (boot (Some a_key))
       (@call_each pixel_libs (take 3 three_calls) (boot (Some a_key))).2 = 1%nat
  /\ Forall (fun req => req_model req = the_handle)
       (new_calls (boot (Some a_key))
          (@call_each pixel_libs three_calls (boot (Some a_key))).2).
Proof.
  assert (Hlen : (2 <= length three_calls)%nat) by (simpl; lia).
  split; [reflexivity|]. split; [exact Hlen|].
  destruct (@model_handle_built_once pixel_libs) as (_ & _ & Hseq).
  destruct (Hseq three_calls (boot (Some a_key)) eq_refl Hlen) as [Hk Hreq].
  split; [apply (Hk 1%nat); simpl; lia|].
  split; [apply (Hk 3%nat); simpl; lia|].
  exact Hreq.
Defined.

(** The instruction sent for the pixel and Amharic. *)
Lemma instruction_template_witness :
  @decodable pixel_libs png_1x1
  /\ exists req,
       new_calls configured_process
         (after (@generate_story_from_image pixel_libs png_1x1 (lit "Amharic")
                   configured_process)) = [req]
       /\ req_prompt req =
            lit "You are an imaginative storyteller. "
            ++ (lit "Look at the image and write a short, vivid narrative "
                ++ lit "(about 3" ++ [8211] ++ lit "5 paragraphs). ")
            ++ (lit "Write the story entirely in " ++ lit "Amharic" ++ lit ". ")
            ++ lit "Do not describe the task, only tell the story.".
Proof.
  split; [apply png_decodable|].
  destruct (@instruction_template pixel_libs png_1x1 (lit "Amharic")
              configured_process) as [Hall _].
  eexists. split; [reflexivity|].
  exact (Forall_inv Hall).
Defined.

(** The pixel, English, and a model that answers with the pixel story
    between blanks, a tab and line breaks. *)
Lemma story_is_stripped_text_witness :
  @PIL_identify padded_pixel_libs png_1x1 = Some (lit "PNG")
  /\ outcome (@generate_story_from_image padded_pixel_libs png_1x1
                (lit "English") configured_process)
     = inr (lit "A lonely pixel dreamed of color.").
Proof.
  split; [reflexivity|].
  destruct (@story_is_stripped_text padded_pixel_libs png_1x1 (lit "English")
              configured_process (lit "PNG") padded_pixel_story
              eq_refl eq_refl)
    as (_ & _ & _ & _ & Hpixel).
  exact (Hpixel eq_refl (or_intror eq_refl)).
Defined.

(** With image and key the press makes one call; with a secrets file
    that holds no key the warning is on the page. *)
Lemma generation_guarded_witness :
  uploaded_file (pressed (lit "English")) = Some pixel_file
  /\ truthy (GEMINI_API_KEY (boot (Some a_key))) = true
  /\ supported (lit "English")
  /\ length (new_calls (boot (Some a_key))
               (after (@rerun pixel_libs (pressed (lit "English"))
                         (boot (Some a_key))))) = 1%nat
  /\ StWarning no_key_warning
     ∈ screen (after (@rerun pixel_libs (pressed (lit "English")) (boot None))).
Proof.
  split; [reflexivity|]. split; [reflexivity|].
  split; [exact english_supported|].
  split.
  - destruct (@generation_guarded pixel_libs (pressed (lit "English"))
                (boot (Some a_key))) as (_ & _ & _ & _ & _ & Hgo).
    destruct (Hgo pixel_file eq_refl eq_refl eq_refl english_supported eq_refl)
      as [_ Hone].
    exact (Hone (png_decodable _)).
  - destruct (@generation_guarded pixel_libs (pressed (lit "English"))
                (boot None)) as (_ & _ & Hloads & _).
    assert (Hfile : secrets (boot None) <> NoSecretsFile) by discriminate.
    destruct (Hloads Hfile eq_refl) as (_ & _ & Hwarn).
    exact (Hwarn eq_refl).
Defined.

(** C9, where the script falls short: without a secrets file the
    credential is missing, yet the run shows no warning: it ends with the
    exception of [st.secrets] and an empty page. *)
Lemma no_secrets_file_no_warning :
  GEMINI_API_KEY boot_bare = None
  /\ outcome (@rerun pixel_libs (pressed (lit "English")) boot_bare)
     = inl no_secrets
  /\ screen (after (@rerun pixel_libs (pressed (lit "English")) boot_bare))
     = [].
Proof. repeat split; reflexivity. Qed.

(** Two images, two processes, two transports, one language: one
    instruction. *)
Lemma instruction_depends_on_language_only_witness :
  exists req1 req2,
    new_calls (boot None)
      (after (@generate_story_from_image pixel_libs png_1x1 (lit "Klingon")
                (boot None))) = [req1]
    /\ new_calls configured_process
         (after (@generate_story_from_image timeout_libs other_png
                   (lit "Klingon") configured_process)) = [req2]
    /\ req_prompt req1 = req_prompt req2.
Proof.
  destruct instruction_depends_on_language_only as (pre & post & _ & Hsame & _).
  eexists _, _. split; [reflexivity|]. split; [reflexivity|].
  apply (Hsame pixel_libs timeout_libs png_1x1 other_png (lit "Klingon")
           (boot None) configured_process).
  - rewrite generate_story_new_calls. apply list_elem_of_singleton. reflexivity.
  - rewrite generate_story_new_calls. apply list_elem_of_singleton. reflexivity.
Defined.

(** * Further properties of the script *)

(** ** More on the generation call *)

Section MoreGeneration.
Context {libs : Libraries}.

(** X1.  Whitespace the model puts around its text never reaches the
    caller: a response that is a text between a whitespace-only lead and a
    whitespace-only trail gives the same story as the text alone, and the
    story returned is left unchanged by stripping it again. *)
Theorem padding_ignored (image_bytes : bytes) (language : str) (p : Process)
    (fmt lead text trail : str) :
  PIL_identify image_bytes = Some fmt ->
  whitespace_only lead ->
  whitespace_only trail ->
  genai_transport (length (transport_log p))
    (story_request p fmt image_bytes language)
  = inr (Candidate (lead ++ text ++ trail)) ->
  outcome (generate_story_from_image image_bytes language p) = inr (strip text)
  /\ strip (strip text) = strip text.
Proof.
  intros Hfmt Hlead Htrail Hreply.
  rewrite generate_story_run, Hfmt. cbv zeta. rewrite Hreply. simpl.
  split; [by rewrite strip_padding | apply strip_idempotent].
Qed.

Lemma handle_in_after_call (image_bytes : bytes) (language : str) (p : Process) :
  handle_in (after (generate_story_from_image image_bytes language p))
  = handle_in p.
Proof.
  destruct (generate_story_effect image_bytes language p) as (Hc & _).
  unfold handle_in at 1. by rewrite Hc.
Qed.

(** X3.  Repeating an invocation, whether the first one failed or not,
    sends the same request again (same handle, key, instruction, image and
    timeout) and builds no handle: the cache the first invocation left is
    the one the second finds and leaves. *)
Theorem retry_sends_same_request (image_bytes : bytes) (language : str)
    (p : Process) :
  let r1 := generate_story_from_image image_bytes language p in
  let r2 := generate_story_from_image image_bytes language (after r1) in
  new_calls (after r1) (after r2) = new_calls p (after r1)
  /\ new_handles (after r1) (after r2) = 0%nat
  /\ resource_cache (after r2) = resource_cache (after r1)
  /\ resource_cache (after r1) = Some (handle_in p).
Proof.
  cbv zeta.
  rewrite (generate_story_new_calls image_bytes language p).
  set (q := after (generate_story_from_image image_bytes language p)).
  rewrite (generate_story_new_calls image_bytes language q).
  destruct (generate_story_effect image_bytes language p)
    as (Hc & _ & _ & _ & Hkey & _). fold q in Hc, Hkey.
  destruct (generate_story_effect image_bytes language q)
    as (Hc' & Hn' & _).
  pose proof (handle_in_after_call image_bytes language p) as Hh. fold q in Hh.
  rewrite warmed_constructed, Hc in Hn'.
  split; [|split; [|split]].
  - unfold expected_calls, story_request. by rewrite Hh, Hkey.
  - unfold new_handles. rewrite Hn'. lia.
  - by rewrite Hc', Hh.
  - done.
Qed.

End MoreGeneration.

(** ** More on the page *)

Section MorePage.
Context {libs : Libraries}.

Lemma rerun_supported (ui : Interaction) (p : Process) (f : UploadedFile) :
  may_generate p ui = true ->
  preview_error ui = None ->
  uploaded_file ui = Some f ->
  supported (selected_lang ui) ->
  let q := set_screen (controls p ui) (configured p) in
  rerun ui p =
    match generate_story_from_image (getvalue f) (selected_lang ui) q with
    | (inr story_text, p') =>
        (inr tt, set_screen (screen p' ++ [story_markdown ui story_text]) p')
    | (inl e, p') => (inl e, p')
    end.
Proof.
  intros Hguard Hpreview Hfile Hsel. cbv zeta.
  rewrite (rerun_generate ui p f Hguard Hpreview Hfile). cbv zeta.
  by rewrite (lang_map_supported _ Hsel).
Qed.

(** With a key, the request of a call made at the guard is the page's. *)
Lemma story_request_at_guard (ui : Interaction) (p : Process)
    (f : UploadedFile) (fmt language : str) :
  truthy (GEMINI_API_KEY p) = true ->
  story_request (set_screen (controls p ui) (configured p)) fmt (getvalue f)
    language
  = page_request p f fmt language.
Proof. intros Hkey. unfold configured. by rewrite Hkey. Qed.

Lemma transport_log_at_guard (ui : Interaction) (p : Process) :
  transport_log (set_screen (controls p ui) (configured p)) = transport_log p.
Proof. unfold configured. by destruct (truthy (GEMINI_API_KEY p)). Qed.

Lemma rpcs_at_guard (ui : Interaction) (p : Process) :
  rpcs (set_screen (controls p ui) (configured p)) = rpcs p.
Proof. unfold configured. by destruct (truthy (GEMINI_API_KEY p)). Qed.

(** The whole of a page run that passes the guard with a supported
    language and a preview that renders, one case per way out. *)
Lemma rerun_run (ui : Interaction) (p : Process) (f : UploadedFile) :
  may_generate p ui = true ->
  preview_error ui = None ->
  uploaded_file ui = Some f ->
  supported (selected_lang ui) ->
  let q := warmed (set_screen (controls p ui) (configured p)) in
  rerun ui p =
    match PIL_identify (getvalue f) with
    | None => (inl UnidentifiedImageError, q)
    | Some fmt =>
        let req := page_request p f fmt (selected_lang ui) in
        let q' :=
          set_rpcs (rpcs p + genai_rpcs (length (transport_log p)) req)
            (set_transport_log (transport_log p ++ [req]) q) in
        match genai_transport (length (transport_log p)) req with
        | inl cause => (inl (GenaiError cause), q')
        | inr (Candidate t) =>
            (inr tt,
             set_screen (controls p ui ++ [story_markdown ui (strip t)]) q')
        | inr (NoText why) => (inl (ValueError why), q')
        end
    end.
Proof.
  intros Hguard Hpreview Hfile Hsel. cbv zeta.
  pose proof Hguard as (_ & _ & Hkey)%may_generate_true.
  rewrite (rerun_supported ui p f Hguard Hpreview Hfile Hsel). cbv zeta.
  rewrite generate_story_run.
  destruct (PIL_identify (getvalue f)) as [fmt|]; [|done]. cbv zeta.
  rewrite story_request_at_guard, transport_log_at_guard, rpcs_at_guard by done.
  destruct (genai_transport _ _) as [cause|[t|why]]; try done.
  simpl. by rewrite warmed_screen.
Qed.

Lemma preview_renders (ui : Interaction) (f : UploadedFile) :
  uploaded_file ui = Some f ->
  st_image_error (getvalue f) = None ->
  preview_error ui = None.
Proof. unfold preview_error. by intros ->. Qed.

Lemma controls_not_result (p : Process) (ui : Interaction) (w : Widget) :
  w ∈ controls p ui -> ~ is_result w.
Proof.
  unfold controls. rewrite !elem_of_app, list_elem_of_singleton.
  intros [Hw|[->|Hw]]; [|simpl; tauto|].
  - destruct (uploaded_file ui); [|by apply not_elem_of_nil in Hw].
    apply list_elem_of_singleton in Hw as ->. simpl. tauto.
  - destruct (truthy (GEMINI_API_KEY p)); [by apply not_elem_of_nil in Hw|].
    apply list_elem_of_singleton in Hw as ->. simpl. tauto.
Qed.

(** X4.  The page shows the story.  When the button is pressed with an
    image uploaded, a key configured and a supported language selected,
    the preview renders, the image decodes and the model answers with text, the run ends
    normally and has rendered the controls followed by one markdown
    block: the heading naming the selected language, an empty line, and
    the stripped text.  The placeholder is not rendered. *)
Theorem page_shows_story (ui : Interaction) (p : Process) (f : UploadedFile)
    (fmt text : str) :
  generate_clicked ui = true ->
  uploaded_file ui = Some f ->
  truthy (GEMINI_API_KEY p) = true ->
  supported (selected_lang ui) ->
  st_image_error (getvalue f) = None ->
  PIL_identify (getvalue f) = Some fmt ->
  genai_transport (length (transport_log p))
    (page_request p f fmt (selected_lang ui)) = inr (Candidate text) ->
  let r := rerun ui p in
  outcome r = inr tt
  /\ screen (after r) =
       controls p ui
       ++ [StoryMarkdown
             (lit "##### Your Story in " ++ selected_lang ui ++ [10; 10]
              ++ strip text)]
  /\ (PlaceholderMarkdown ∉ screen (after r))
  /\ new_calls p (after r) = [page_request p f fmt (selected_lang ui)].
Proof.
  intros Hclick Hfile Hkey Hsel Hrenders Hfmt Hreply. cbv zeta.
  assert (Hguard : may_generate p ui = true).
  { apply may_generate_true. by rewrite Hfile. }
  pose proof (preview_renders ui f Hfile Hrenders) as Hpreview.
  rewrite rerun_new_calls, Hguard, Hpreview, Hfile, (lang_map_supported _ Hsel).
  unfold expected_calls. rewrite Hfmt, story_request_at_guard by done.
  rewrite (rerun_run ui p f Hguard Hpreview Hfile Hsel), Hfmt. cbv zeta.
  rewrite Hreply. simpl.
  repeat split; try done.
  rewrite elem_of_app, list_elem_of_singleton.
  intros [Hw|Hw]; [|done].
  by apply controls_not_result in Hw.
Qed.

(** X5.  A blank answer on the page.  Under the same conditions, a
    response text that is empty or whitespace only makes the run end
    normally with the heading and nothing under it; neither the
    placeholder nor any error is shown. *)
Theorem page_blank_story (ui : Interaction) (p : Process) (f : UploadedFile)
    (fmt text : str) :
  generate_clicked ui = true ->
  uploaded_file ui = Some f ->
  truthy (GEMINI_API_KEY p) = true ->
  supported (selected_lang ui) ->
  st_image_error (getvalue f) = None ->
  PIL_identify (getvalue f) = Some fmt ->
  genai_transport (length (transport_log p))
    (page_request p f fmt (selected_lang ui)) = inr (Candidate text) ->
  whitespace_only text ->
  let r := rerun ui p in
  outcome r = inr tt
  /\ last (screen (after r)) =
       Some (StoryMarkdown
               (lit "##### Your Story in " ++ selected_lang ui ++ [10; 10])).
Proof.
  intros Hclick Hfile Hkey Hsel Hrenders Hfmt Hreply Hblank. cbv zeta.
  assert (Hguard : may_generate p ui = true).
  { apply may_generate_true. by rewrite Hfile. }
  pose proof (preview_renders ui f Hfile Hrenders) as Hpreview.
  rewrite (rerun_run ui p f Hguard Hpreview Hfile Hsel), Hfmt. cbv zeta.
  rewrite Hreply. simpl.
  split; [done|]. rewrite last_snoc.
  unfold story_markdown. by rewrite (strip_whitespace _ Hblank).
Qed.

(** The calls a page run makes, in terms of the page's inputs. *)
Lemma rerun_page_calls (ui : Interaction) (p : Process) :
  new_calls p (after (rerun ui p)) =
    if may_generate p ui then
      match preview_error ui, uploaded_file ui with
      | None, Some f =>
          if decide (supported (selected_lang ui)) then
            match PIL_identify (getvalue f) with
            | Some fmt => [page_request p f fmt (selected_lang ui)]
            | None => []
            end
          else []
      | _, _ => []
      end
    else [].
Proof.
  rewrite rerun_new_calls.
  destruct (may_generate p ui) eqn:Hguard; [|done].
  pose proof Hguard as (_ & _ & Hkey)%may_generate_true.
  destruct (preview_error ui); [done|].
  destruct (uploaded_file ui) as [f|]; [|done].
  destruct (decide (supported (selected_lang ui))) as [Hsel|Hsel].
  - rewrite (lang_map_supported _ Hsel). unfold expected_calls.
    destruct (PIL_identify (getvalue f)) as [fmt|]; [|done].
    by rewrite story_request_at_guard.
  - by rewrite (lang_map_unsupported _ Hsel).
Qed.

Lemma page_call_fields_aux (ui : Interaction) (p : Process) (req : Request) :
  req ∈ new_calls p (after (rerun ui p)) ->
  req_credential req = GEMINI_API_KEY p /\ truthy (GEMINI_API_KEY p) = true.
Proof.
  rewrite rerun_page_calls.
  destruct (may_generate p ui) eqn:Hguard; [|by intros ?%not_elem_of_nil].
  pose proof Hguard as (_ & _ & Hkey)%may_generate_true.
  destruct (preview_error ui); [by intros ?%not_elem_of_nil|].
  destruct (uploaded_file ui) as [f|]; [|by intros ?%not_elem_of_nil].
  destruct (decide (supported (selected_lang ui)));
    [|by intros ?%not_elem_of_nil].
  destruct (PIL_identify (getvalue f)); [|by intros ?%not_elem_of_nil].
  by intros ->%list_elem_of_singleton.
Qed.

(** X6.  Every call a page run sends is the page's request: it carries
    the bytes of the uploaded file, the secret as the key, the instruction
    for the selected language, the timeout of 120 seconds and the memoized
    handle; it is the only call of the run, and the run had a non-empty
    secret, a pressed button and a supported language. *)
Theorem page_call_fields (ui : Interaction) (p : Process) (req : Request) :
  req ∈ new_calls p (after (rerun ui p)) ->
  exists f fmt,
    uploaded_file ui = Some f
    /\ PIL_identify (getvalue f) = Some fmt
    /\ req = page_request p f fmt (selected_lang ui)
    /\ img_fp (req_image req) = getvalue f
    /\ req_credential req = GEMINI_API_KEY p
    /\ req_timeout req = 120%Z
    /\ truthy (GEMINI_API_KEY p) = true
    /\ generate_clicked ui = true
    /\ supported (selected_lang ui)
    /\ new_calls p (after (rerun ui p)) = [req].
Proof.
  rewrite rerun_page_calls.
  destruct (may_generate p ui) eqn:Hguard; [|by intros ?%not_elem_of_nil].
  pose proof Hguard as (Hclick & _ & Hkey)%may_generate_true.
  destruct (preview_error ui); [by intros ?%not_elem_of_nil|].
  destruct (uploaded_file ui) as [f|]; [|by intros ?%not_elem_of_nil].
  destruct (decide (supported (selected_lang ui))) as [Hsel|Hsel];
    [|by intros ?%not_elem_of_nil].
  destruct (PIL_identify (getvalue f)) as [fmt|] eqn:Hfmt;
    [|by intros ?%not_elem_of_nil].
  intros ->%list_elem_of_singleton. by exists f, fmt.
Qed.

Lemma rendered_decodable (data : bytes) :
  st_image_error data = None -> decodable data.
Proof.
  intros Hrenders. unfold decodable.
  destruct (PIL_identify data) as [fmt|] eqn:Hfmt; [by eexists|].
  destruct (st_image_rejects data Hfmt) as [e He]. congruence.
Qed.

(** X7.  A page run makes at most one call of the model client, and
    makes one exactly when the button is pressed, a non-empty secret is
    configured, the selected language is supported, and a file is
    uploaded whose preview renders (which takes bytes that decode). *)
Theorem page_sends_one_call_iff (ui : Interaction) (p : Process) :
  let r := rerun ui p in
  (length (new_calls p (after r)) <= 1)%nat
  /\ (length (new_calls p (after r)) = 1%nat <->
      generate_clicked ui = true
      /\ truthy (GEMINI_API_KEY p) = true
      /\ supported (selected_lang ui)
      /\ exists f, uploaded_file ui = Some f
                   /\ st_image_error (getvalue f) = None)
  /\ (forall f, st_image_error (getvalue f) = None -> decodable (getvalue f)).
Proof.
  cbv zeta. split; [|split; [|intros f; apply rendered_decodable]];
    rewrite rerun_page_calls; unfold preview_error.
  - destruct (may_generate p ui); [|simpl; lia].
    destruct (uploaded_file ui) as [f|]; [|simpl; lia].
    destruct (st_image_error (getvalue f)); [simpl; lia|].
    destruct (decide (supported (selected_lang ui))); [|simpl; lia].
    destruct (PIL_identify (getvalue f)); simpl; lia.
  - destruct (may_generate p ui) eqn:Hguard.
    + pose proof Hguard as (Hclick & [f Hupload] & Hkey)%may_generate_true.
      rewrite Hupload.
      destruct (st_image_error (getvalue f)) as [e|] eqn:Hpreview.
      { simpl. split; [done|].
        intros (_ & _ & _ & f' & [= <-] & ?). congruence. }
      destruct (decide (supported (selected_lang ui))) as [Hsel|Hsel];
        [|simpl; split; [done | tauto]].
      destruct (rendered_decodable _ Hpreview) as [fmt Hfmt].
      rewrite Hfmt. simpl. split; [|done]. intros _.
      do 3 (split; [done|]). by exists f.
    + simpl. split; [done|].
      intros (Hclick & Hkey & _ & f & Hupload & _).
      assert (may_generate p ui = true); [|congruence].
      apply may_generate_true. by rewrite Hupload.
Qed.

(** A run that reads its secrets and renders its preview has rendered
    the controls, then at most the story or the placeholder. *)
Lemma rerun_screen (ui : Interaction) (p : Process) :
  secrets p <> NoSecretsFile ->
  preview_error ui = None ->
  exists tail,
    screen (after (rerun ui p)) = controls p ui ++ tail
    /\ Forall is_result tail.
Proof.
  intros Hfile Hpreview.
  destruct (may_generate p ui) eqn:Hguard.
  - pose proof Hguard as (_ & [f Hupload] & _)%may_generate_true.
    rewrite (rerun_generate ui p f Hguard Hpreview Hupload). cbv zeta.
    set (q := set_screen (controls p ui) (configured p)).
    destruct (lang_map !! selected_lang ui) as [language|].
    + destruct (generate_story_effect (getvalue f) language q)
        as (_ & _ & _ & _ & _ & Hscreen).
      destruct (generate_story_from_image _ _ _) as [[e|story_text] p'];
        simpl in *; rewrite Hscreen.
      * exists []. by rewrite app_nil_r.
      * eexists. split; [done|]. by repeat constructor.
    + exists []. simpl. by rewrite app_nil_r.
  - rewrite rerun_inert by done. simpl.
    eexists. split; [done|]. by repeat constructor.
Qed.


Lemma result_not_control (tail : list Widget) (w : Widget) :
  Forall is_result tail -> ~ is_result w -> w ∈ tail -> False.
Proof. rewrite Forall_forall. intros Htail Hw Hin. by apply Hw, Htail. Qed.

Lemma controls_image_iff (p : Process) (ui : Interaction) (f : UploadedFile) :
  StImage f ∈ controls p ui <-> uploaded_file ui = Some f.
Proof.
  unfold controls. rewrite !elem_of_app, list_elem_of_singleton.
  destruct (uploaded_file ui) as [f'|];
    destruct (truthy (GEMINI_API_KEY p));
    rewrite ?list_elem_of_singleton, ?elem_of_nil;
    intuition congruence.
Qed.

Lemma controls_button_iff (p : Process) (ui : Interaction) (label : str)
    (disabled : bool) :
  StButton label disabled ∈ controls p ui <->
  label = lit "Generate Story"
  /\ disabled = bool_decide (uploaded_file ui = None)
                || negb (truthy (GEMINI_API_KEY p)).
Proof.
  unfold controls. rewrite !elem_of_app, list_elem_of_singleton.
  destruct (uploaded_file ui) as [f'|];
    destruct (truthy (GEMINI_API_KEY p));
    rewrite ?list_elem_of_singleton, ?elem_of_nil;
    intuition congruence.
Qed.

Lemma controls_warning_iff (p : Process) (ui : Interaction) (body : str) :
  StWarning body ∈ controls p ui <->
  body = no_key_warning /\ truthy (GEMINI_API_KEY p) = false.
Proof.
  unfold controls. rewrite !elem_of_app, list_elem_of_singleton.
  destruct (uploaded_file ui) as [f'|];
    destruct (truthy (GEMINI_API_KEY p));
    rewrite ?list_elem_of_singleton, ?elem_of_nil;
    intuition congruence.
Qed.

(** X9.  The controls of every run.  A run that reads its secrets and
    renders its preview, however it ends after that, has rendered the
    image preview exactly when a file is uploaded, the generate button
    under its fixed label with the disabled flag set exactly when the
    file or the credential is missing, and the missing-key warning
    exactly when the credential is missing.  A run without a secrets
    file, or whose upload cannot be previewed, has rendered nothing. *)
Theorem page_controls (ui : Interaction) (p : Process) :
  let page := screen (after (rerun ui p)) in
  (secrets p <> NoSecretsFile ->
   preview_error ui = None ->
   (forall f, StImage f ∈ page <-> uploaded_file ui = Some f)
   /\ (forall label disabled,
         StButton label disabled ∈ page <->
         label = lit "Generate Story"
         /\ disabled = bool_decide (uploaded_file ui = None)
                       || negb (truthy (GEMINI_API_KEY p)))
   /\ (forall body,
         StWarning body ∈ page <->
         body = no_key_warning /\ truthy (GEMINI_API_KEY p) = false)
   /\ (StButton (lit "Generate Story") false ∈ page <->
       is_Some (uploaded_file ui) /\ truthy (GEMINI_API_KEY p) = true))
  /\ (secrets p = NoSecretsFile \/ is_Some (preview_error ui) -> page = []).
Proof.
  cbv zeta. split.
  - intros Hfile Hpreview.
    destruct (rerun_screen ui p Hfile Hpreview) as (tail & -> & Htail).
    assert (Hskip : forall w, ~ is_result w ->
              (w ∈ controls p ui ++ tail <-> w ∈ controls p ui)).
    { intros w Hw. rewrite elem_of_app. split; [|tauto].
      intros [Hin|Hin]; [done|]. by destruct (result_not_control tail w). }
    split; [|split; [|split]].
    + intros f. rewrite Hskip by (simpl; tauto). apply controls_image_iff.
    + intros label disabled. rewrite Hskip by (simpl; tauto).
      apply controls_button_iff.
    + intros body. rewrite Hskip by (simpl; tauto). apply controls_warning_iff.
    + rewrite Hskip by (simpl; tauto). rewrite controls_button_iff.
      rewrite <- not_eq_None_Some.
      destruct (uploaded_file ui) as [f|];
        destruct (truthy (GEMINI_API_KEY p)); simpl; intuition congruence.
  - intros Hearly.
    destruct (secrets p) as [|key] eqn:Hsecrets.
    { by rewrite rerun_no_secrets. }
    destruct Hearly as [?|[e Hpreview]]; [done|].
    rewrite (rerun_preview_fails ui p e); [done|congruence|done].
Qed.

Lemma rerun_keys (ui : Interaction) (p : Process) :
  GEMINI_API_KEY (after (rerun ui p)) = GEMINI_API_KEY p
  /\ genai_api_key (after (rerun ui p)) = genai_api_key (configured p).
Proof.
  assert (Hsecret : GEMINI_API_KEY (configured p) = GEMINI_API_KEY p).
  { unfold configured. by destruct (truthy (GEMINI_API_KEY p)). }
  destruct (secrets p) as [|key] eqn:Hsecrets.
  { rewrite rerun_no_secrets by done. simpl. split; [done|].
    unfold configured, GEMINI_API_KEY. by rewrite Hsecrets. }
  assert (Hfile : secrets p <> NoSecretsFile) by congruence.
  destruct (preview_error ui) as [e|] eqn:Hpreview.
  { by rewrite (rerun_preview_fails ui p e). }
  destruct (may_generate p ui) eqn:Hguard.
  - pose proof Hguard as (_ & [f Hupload] & _)%may_generate_true.
    rewrite (rerun_generate ui p f Hguard Hpreview Hupload). cbv zeta.
    set (q := set_screen (controls p ui) (configured p)).
    destruct (lang_map !! selected_lang ui) as [language|]; [|done].
    destruct (generate_story_effect (getvalue f) language q)
      as (_ & _ & _ & Hs & Hk & _).
    unfold q in Hs at 2. rewrite key_set_screen, Hsecret in Hs.
    destruct (generate_story_from_image _ _ _) as [[e|story_text] p'];
      unfold after in *; cbn [snd] in *; rewrite ?key_set_screen;
      (split; [exact Hs | exact Hk]).
  - by rewrite rerun_inert.
Qed.

Lemma rerun_log (ui : Interaction) (p : Process) :
  transport_log (after (rerun ui p))
  = transport_log p ++ new_calls p (after (rerun ui p)).
Proof.
  unfold new_calls.
  destruct (rerun_core ui p)
    as [(_ & _ & Hlog)|(b & l & q & (_ & _ & Hq) & (_ & _ & Hlog))].
  - by rewrite Hlog, drop_all, app_nil_r.
  - destruct (generate_story_effect b l q) as (_ & _ & Hq' & _).
    rewrite Hlog, Hq', Hq. by rewrite drop_app_length.
Qed.

Lemma key_from_secret_call (image_bytes : bytes) (language : str) (p : Process) :
  key_from_secret p ->
  key_from_secret (after (generate_story_from_image image_bytes language p)).
Proof.
  intros [Hkey Hlog].
  destruct (generate_story_effect image_bytes language p)
    as (_ & _ & Hl & Hs & Hk & _).
  unfold key_from_secret. rewrite Hs, Hk, Hl. split; [done|].
  apply Forall_app. split; [done|].
  unfold expected_calls.
  destruct (PIL_identify image_bytes); [|constructor].
  apply Forall_singleton. exact Hkey.
Qed.

Lemma key_from_secret_rerun (ui : Interaction) (p : Process) :
  key_from_secret p -> key_from_secret (after (rerun ui p)).
Proof.
  intros [Hkey Hlog].
  destruct (rerun_keys ui p) as [Hs Hk].
  unfold key_from_secret. rewrite Hs, Hk, rerun_log. split.
  - unfold configured.
    destruct (truthy (GEMINI_API_KEY p)) eqn:Htruthy; [by right | done].
  - apply Forall_app. split; [done|].
    apply Forall_forall. intros req Hreq.
    destruct (page_call_fields_aux ui p req Hreq) as [-> ?]. by right.
Qed.

(** X10.  The only key the script ever installs is the secret.  In every
    state the process reaches, the key installed by [genai.configure] is
    absent or is the secret, which is then not empty, and every call of
    the client so far was made with no key installed (the client then
    falls back on the environment) or with the secret installed.  No run
    changes the secret, and a run of the page with a non-empty secret
    leaves that secret installed. *)
Theorem installed_key_is_secret (p : Process) :
  reachable p ->
  key_from_secret p
  /\ (forall ui, GEMINI_API_KEY (after (rerun ui p)) = GEMINI_API_KEY p)
  /\ (forall image_bytes language,
        GEMINI_API_KEY (after (generate_story_from_image image_bytes language p))
        = GEMINI_API_KEY p)
  /\ (forall ui,
        truthy (GEMINI_API_KEY p) = true ->
        genai_api_key (after (rerun ui p)) = GEMINI_API_KEY p).
Proof.
  intros Hreach. split; [|split; [|split]].
  - induction Hreach as [secret| |p ui _ IH|p image_bytes language _ IH].
    + split; [by left | constructor].
    + split; [by left | constructor].
    + by apply key_from_secret_rerun.
    + by apply key_from_secret_call.
  - intros ui. apply rerun_keys.
  - intros image_bytes language.
    by destruct (generate_story_effect image_bytes language p)
      as (_ & _ & _ & Hs & _).
  - intros ui Hkey. destruct (rerun_keys ui p) as [_ ->].
    unfold configured. by rewrite Hkey.
Qed.

End MorePage.

(** ** More on sequences of calls *)

Section MoreCalls.
Context {libs : Libraries}.

(** X11.  A sequence of invocations yields one outcome per invocation and
    sends one call for each image that decodes, in the order of the
    invocations, each with the bytes of its image and the instruction for
    its language; invocations on bytes that do not decode send nothing and
    do not disturb the calls after them. *)
Theorem sequence_sends_decodable (calls : list (bytes * str)) (p : Process) :
  let r := call_each calls p in
  length r.1 = length calls
  /\ (fun req => (img_fp (req_image req), req_prompt req)) <$> new_calls p r.2
     = (fun c : bytes * str => (c.1, instruction c.2))
         <$> filter (fun c : bytes * str => is_Some (PIL_identify c.1)) calls.
Proof.
  cbv zeta. revert p.
  induction calls as [|[image_bytes language] rest IH]; intros p.
  - simpl. unfold new_calls. by rewrite drop_all.
  - simpl.
    set (q := after (generate_story_from_image image_bytes language p)).
    destruct (IH q) as [Hlen Hsent].
    split; [by rewrite Hlen|].
    destruct (generate_story_effect image_bytes language p)
      as (_ & _ & Hlog & _). fold q in Hlog.
    destruct (call_each_log rest q) as [sent Hq].
    rewrite (new_calls_trans p q _ _ _ Hlog Hq), fmap_app, Hsent.
    unfold q. rewrite generate_story_new_calls. unfold expected_calls.
    destruct (PIL_identify image_bytes) as [fmt|] eqn:Hfmt.
    + rewrite filter_cons_True by (simpl; rewrite Hfmt; by eexists). done.
    + rewrite filter_cons_False; [done|].
      simpl. rewrite Hfmt. by intros [? ?].
Qed.

End MoreCalls.

(** ** The further properties on concrete runs *)

(** The pixel story comes back from a padded response. *)
Lemma padding_ignored_witness :
  whitespace_only (lit "  ")
  /\ whitespace_only [10]
  /\ outcome (@generate_story_from_image padded_libs png_1x1 (lit "English")
                configured_process) = inr pixel_story.
Proof.
  assert (Hlead : whitespace_only (lit "  ")) by (by repeat constructor).
  assert (Htrail : whitespace_only [10]) by (by repeat constructor).
  split; [exact Hlead|]. split; [exact Htrail|].
  exact (proj1 (@padding_ignored padded_libs png_1x1 (lit "English")
                  configured_process (lit "PNG") (lit "  ") pixel_story [10]
                  eq_refl Hlead Htrail eq_refl)).
Defined.

(** Pressing the button for the pixel shows the pixel story in English. *)
Lemma page_shows_story_witness :
  supported (lit "English")
  /\ outcome (@rerun pixel_libs (pressed (lit "English")) (boot (Some a_key)))
     = inr tt
  /\ screen (after (@rerun pixel_libs (pressed (lit "English"))
                      (boot (Some a_key))))
     = [StImage pixel_file;
        StButton (lit "Generate Story") false;
        StoryMarkdown (lit "##### Your Story in English" ++ [10; 10]
                       ++ pixel_story)].
Proof.
  split; [exact english_supported|].
  destruct (@page_shows_story pixel_libs (pressed (lit "English"))
              (boot (Some a_key)) pixel_file (lit "PNG") pixel_story
              eq_refl eq_refl eq_refl english_supported eq_refl eq_refl
              eq_refl)
    as (Hout & Hscreen & _).
  exact (conj Hout Hscreen).
Defined.

(** A blank answer: the heading alone. *)
Lemma page_blank_story_witness :
  whitespace_only (lit "  " ++ [10])
  /\ last (screen (after (@rerun blank_libs (pressed (lit "Amharic"))
                            (boot (Some a_key)))))
     = Some (StoryMarkdown (lit "##### Your Story in Amharic" ++ [10; 10])).
Proof.
  assert (Hblank : whitespace_only (lit "  " ++ [10])) by (by repeat constructor).
  assert (Hsel : supported (lit "Amharic")).
  { unfold supported, lang_tabs. right. left. }
  split; [exact Hblank|].
  exact (proj2 (@page_blank_story blank_libs (pressed (lit "Amharic"))
                  (boot (Some a_key)) pixel_file (lit "PNG") (lit "  " ++ [10])
                  eq_refl eq_refl eq_refl Hsel eq_refl eq_refl eq_refl
                  Hblank)).
Defined.

(** The one call of the press carries the pixel and the key. *)
Lemma page_call_fields_witness :
  exists req,
    req ∈ new_calls (boot (Some a_key))
            (after (@rerun pixel_libs (pressed (lit "Chinese"))
                      (boot (Some a_key))))
    /\ img_fp (req_image req) = png_1x1
    /\ req_credential req = Some a_key
    /\ req_timeout req = 120%Z.
Proof.
  exists (page_request (boot (Some a_key)) pixel_file (lit "PNG") (lit "Chinese")).
  assert (Hin : page_request (boot (Some a_key)) pixel_file (lit "PNG")
                  (lit "Chinese")
                ∈ new_calls (boot (Some a_key))
                    (after (@rerun pixel_libs (pressed (lit "Chinese"))
                              (boot (Some a_key))))).
  { rewrite rerun_page_calls. apply list_elem_of_here. }
  split; [exact Hin|].
  destruct (@page_call_fields pixel_libs (pressed (lit "Chinese"))
              (boot (Some a_key)) _ Hin)
    as (f & fmt & Hfile & _ & _ & Himage & Hcred & Htime & _).
  injection Hfile as <-.
  exact (conj Himage (conj Hcred Htime)).
Defined.

(** The press makes one call; without the key it makes none. *)
Lemma page_sends_one_call_iff_witness :
  length (new_calls (boot (Some a_key))
            (after (@rerun pixel_libs (pressed (lit "English"))
                      (boot (Some a_key))))) = 1%nat
  /\ (length (new_calls (boot None)
                (after (@rerun pixel_libs (pressed (lit "English"))
                          (boot None)))) <= 1)%nat.
Proof.
  split.
  - destruct (@page_sends_one_call_iff pixel_libs (pressed (lit "English"))
                (boot (Some a_key))) as (_ & [_ Hone] & _).
    apply Hone. split; [reflexivity|]. split; [reflexivity|].
    split; [exact english_supported|].
    exists pixel_file. split; reflexivity.
  - exact (proj1 (@page_sends_one_call_iff pixel_libs (pressed (lit "English"))
                    (boot None))).
Defined.


(** The press renders an enabled button; no warning with a key. *)
Lemma page_controls_witness :
  StButton (lit "Generate Story") false
  ∈ screen (after (@rerun pixel_libs (pressed (lit "English"))
                     (boot (Some a_key)))).
Proof.
  assert (Hfile : secrets (boot (Some a_key)) <> NoSecretsFile) by discriminate.
  destruct (@page_controls pixel_libs (pressed (lit "English"))
              (boot (Some a_key))) as [Hloads _].
  destruct (Hloads Hfile eq_refl) as (_ & _ & _ & Henabled).
  apply Henabled. split; [by eexists | reflexivity].
Defined.

(** After one served press the installed key is the secret. *)
Lemma installed_key_is_secret_witness :
  @reachable pixel_libs served_process
  /\ key_from_secret served_process.
Proof.
  assert (Hreach : @reachable pixel_libs served_process).
  { unfold served_process. apply reach_rerun, reach_boot. }
  split; [exact Hreach|].
  exact (proj1 (@installed_key_is_secret pixel_libs served_process Hreach)).
Defined.
